(** * FAANG download-and-plot script: a shallow embedding of [faang.py]

    The script has two stages that meet on the filesystem.  [get_data]
    downloads one hourly frame per ticker, tags and concatenates the frames,
    sorts the result by (Datetime, Ticker) and writes it under [data/].
    [plot_data] picks the last CSV of [data/] in sorted order, rebases the
    Close column of every ticker on its first non-missing value and draws one
    line per ticker.

    Numbers are IEEE binary64 values, as in pandas' float64 columns: a missing
    value of such a column is NaN.  The scalar [pd.NA] is kept apart from NaN,
    because [_normalize] returns it when rebasing is undefined.  Library calls
    (pandas, pathlib, matplotlib) are modelled on their success path; the only
    errors are the two [raise] statements of the source.  One call of a
    stage is modelled within one reading of the clock; between two calls the
    clock may have moved ([at_time], and [later] in [main]).  The market-data
    source, the printing of floats by [to_csv] and the numeric parser behind
    [read_csv] and [to_numeric] are parameters of the sections that use them.

    The file first gives the model, stage by stage, then the value the
    specification assigns to a row ([spec_norm]) and some worked inputs; the
    facts about binary64, the orders and the sort follow, and then the
    properties of the two stages. *)

From Stdlib Require Import ZArith List String Ascii Bool Lia Floats.
From Stdlib Require Import Permutation Sorted.
Import ListNotations.

Local Open Scope Z_scope.
Local Open Scope string_scope.
Local Open Scope list_scope.

(** ** Values of a pandas column *)

(** A float64 column holds floats, NaN standing for a missing entry. *)
Definition Series := list float.

(** An object cell: either a float or the scalar [pd.NA]. *)
Inductive Scalar : Type :=
| Num (x : float)
| NA.

(** [pd.isna] / [pd.notna] on a scalar. *)
Definition isna (v : Scalar) : bool :=
  match v with
  | Num x => is_nan x
  | NA => true
  end.

Definition notna (v : Scalar) : bool := negb (isna v).

(** [Series.dropna()] on a float64 column. *)
Definition dropna (series : Series) : Series :=
  filter (fun x => negb (is_nan x)) series.

(** [Series.empty] *)
Definition empty {A : Type} (l : list A) : bool :=
  match l with
  | [] => true
  | _ :: _ => false
  end.

(** [s.iloc[0]] of a non-empty column, as a scalar. *)
Definition iloc0 (series : Series) : Scalar :=
  match series with
  | x :: _ => Num x
  | [] => NA
  end.

(** What a function given to [transform] may return: a column of the group's
    length, or one scalar that pandas broadcasts over the group. *)
Inductive Applied : Type :=
| ASeries (s : Series)
| AScalar (v : Scalar).

(** [base != 0] for a scalar that is known not to be missing. *)
Definition ne_zero (v : Scalar) : bool :=
  match v with
  | Num x => negb (x =? 0)%float
  | NA => true
  end.

(** [series / base] *)
Definition div_series (series : Series) (base : float) : Series :=
  map (fun c => (c / base)%float) series.

(** Lines 86-88 of the source:
<<
    def _normalize(series):
        base = series.dropna().iloc[0] if not series.dropna().empty else pd.NA
        return series / base if pd.notna(base) and base != 0 else pd.NA
>> *)
Definition _normalize (series : Series) : Applied :=
  let base := if negb (empty (dropna series)) then iloc0 (dropna series) else NA in
  if notna base && ne_zero base
  then match base with
       | Num b => ASeries (div_series series b)
       | NA => AScalar NA
       end
  else AScalar NA.

(** The first non-missing value of a column, when there is one. *)
Definition first_valid (series : Series) : option float :=
  match dropna series with
  | x :: _ => Some x
  | [] => None
  end.

(** [Series(res, index=group.index)]: a returned column is kept, a returned
    scalar is repeated for every row of the group. *)
Definition broadcast (n : nat) (a : Applied) : list Scalar :=
  match a with
  | ASeries s => map Num s
  | AScalar v => repeat v n
  end.

(** ** Ordering and sorting *)

(** [DataFrame.sort_values] on several keys is a stable lexicographic sort.
    It is modelled by stable insertion: a row goes before the first row that
    is not smaller, so rows with equal keys keep their relative order. *)
Section Sorting.
Context {A : Type}.
Variable le : A -> A -> bool.

Fixpoint insert_by (x : A) (l : list A) : list A :=
  match l with
  | [] => [x]
  | y :: l' => if le x y then x :: l else y :: insert_by x l'
  end.

Definition sort_by (l : list A) : list A := fold_right insert_by [] l.
End Sorting.

(** Lexicographic order on a pair of keys, from the orders of the parts. *)
Definition lex_le {K1 K2 : Type}
    (lt1 : K1 -> K1 -> bool) (eq1 : K1 -> K1 -> bool) (le2 : K2 -> K2 -> bool)
    (a : K1 * K2) (b : K1 * K2) : bool :=
  lt1 (fst a) (fst b) || (eq1 (fst a) (fst b) && le2 (snd a) (snd b)).

(** ** Rows *)

(** One row of the frame [yf.download] returns: the time axis and the five
    price columns. *)
Record Bar : Type := mkBar {
  bDatetime : Z;
  bOpen : float;
  bHigh : float;
  bLow : float;
  bClose : float;
  bVolume : float
}.

(** One row of the combined frame of [get_data], in the canonical columns
    Datetime, Open, High, Low, Close, Volume, Ticker.  Lines 53-56 of the
    source only relabel the time axis and drop other columns, which leaves
    this record unchanged. *)
Record PriceRow : Type := mkPriceRow {
  Datetime : Z;
  Open : float;
  High : float;
  Low : float;
  Close : float;
  Volume : float;
  Ticker : string
}.

(** One line of a CSV file: the cells are text, the time is kept parsed. *)
Record CsvRow : Type := mkCsvRow {
  csvDatetime : Z;
  csvOpen : string;
  csvHigh : string;
  csvLow : string;
  csvClose : string;
  csvVolume : string;
  csvTicker : string
}.

(** One row of the frame of [plot_data] once Close is numeric (line 85). *)
Record NumRow : Type := mkNumRow {
  nDatetime : Z;
  nTicker : string;
  nClose : float
}.

(** Sort keys of lines 63 and 84. *)
Definition le_Datetime_Ticker (a b : PriceRow) : bool :=
  lex_le Z.ltb Z.eqb String.leb (Datetime a, Ticker a) (Datetime b, Ticker b).

Definition le_Ticker_Datetime (a b : CsvRow) : bool :=
  lex_le String.ltb String.eqb Z.leb (csvTicker a, csvDatetime a) (csvTicker b, csvDatetime b).

(** ** Grouping and transform *)

(** The rows of one ticker, in frame order. *)
Definition group (t : string) (df : list NumRow) : list NumRow :=
  filter (fun r => String.eqb (nTicker r) t) df.

(** [df.groupby("Ticker")["Close"].transform(func)]: [func] is applied to the
    Close column of every group and the results are put back at the rows they
    came from.  [pre] holds the rows already passed, so that the position of a
    row inside its group is the number of earlier rows of the same ticker. *)
Fixpoint transform_from (func : Series -> Applied) (df pre rest : list NumRow)
    : list Scalar :=
  match rest with
  | [] => []
  | r :: rest' =>
      let g := group (nTicker r) df in
      nth (List.length (group (nTicker r) pre))
          (broadcast (List.length g) (func (map nClose g))) NA
        :: transform_from func df (pre ++ [r]) rest'
  end.

Definition transform (func : Series -> Applied) (df : list NumRow) : list Scalar :=
  transform_from func df [] df.

(** ** The clock and the filesystem *)

(** A UTC wall-clock reading, at second resolution. *)
Record DateTime : Type := mkDateTime {
  year : Z;
  month : Z;
  day : Z;
  hour : Z;
  minute : Z;
  second : Z
}.

(** Zero-padded decimal fields of [strftime]. *)
Definition digit (n : Z) : ascii := ascii_of_N (Z.to_N (48 + n mod 10)).

Definition pad2 (n : Z) : string :=
  String (digit (n / 10)) (String (digit n) EmptyString).

Definition pad4 (n : Z) : string :=
  String (digit (n / 1000)) (String (digit (n / 100)) (pad2 n)).

(** [now.strftime("%Y%m%d-%H%M%S")] *)
Definition strftime (now : DateTime) : string :=
  pad4 (year now) ++ pad2 (month now) ++ pad2 (day now) ++ "-"
    ++ pad2 (hour now) ++ pad2 (minute now) ++ pad2 (second now).

(** The readings [utcnow] can give in the four-digit years. *)
Definition valid_datetime (d : DateTime) : bool :=
  ((1000 <=? year d) && (year d <=? 9999)
   && (1 <=? month d) && (month d <=? 12)
   && (1 <=? day d) && (day d <=? 31)
   && (0 <=? hour d) && (hour d <=? 23)
   && (0 <=? minute d) && (minute d <=? 59)
   && (0 <=? second d) && (second d <=? 59))%Z.

(** Chronological order of two readings, field by field. *)
Definition chron_key (d : DateTime) : list Z :=
  [year d; month d; day d; hour d; minute d; second d].

Fixpoint lex_ltb (a b : list Z) : bool :=
  match a, b with
  | x :: a', y :: b' => (x <? y)%Z || ((x =? y)%Z && lex_ltb a' b')
  | [], _ :: _ => true
  | _, [] => false
  end.

Definition chron_ltb (d1 d2 : DateTime) : bool :=
  lex_ltb (chron_key d1) (chron_key d2).

(** A path [parent / name]. *)
Record Path : Type := mkPath {
  parent : string;
  name : string
}.

(** [Path.__lt__] compares the parts in order; [path_le] is its reflexive
    closure, the order [sorted] works with. *)
Definition path_le (p q : Path) : bool :=
  lex_le String.ltb String.eqb String.leb (parent p, name p) (parent q, name q).

Definition path_eqb (p q : Path) : bool :=
  String.eqb (parent p) (parent q) && String.eqb (name p) (name q).

(** The figure [plot_data] saves: its labels and one line per plotted ticker,
    each line a label and its points. *)
Record Chart : Type := mkChart {
  title : string;
  xlabel : string;
  ylabel : string;
  lines : list (string * list (Z * Scalar))
}.

(** The world a call runs in: the clock, the directories that exist, and the
    files of the two artifact kinds with their contents.  [utcnow] is what
    [dt.datetime.utcnow()] reads during that one call; the filesystem
    operations do not move the clock, a later call runs in a world with a
    later reading ([at_time]). *)
Record World : Type := mkWorld {
  utcnow : DateTime;
  dirs : list string;
  csv_files : list (Path * list CsvRow);
  png_files : list (Path * Chart)
}.

(** The same filesystem when the clock reads [now]. *)
Definition at_time (now : DateTime) (w : World) : World :=
  mkWorld now (dirs w) (csv_files w) (png_files w).

(** Every file lies in a directory that exists. *)
Definition wf_world (w : World) : Prop :=
  (forall f, In f (csv_files w) -> In (parent (fst f)) (dirs w)) /\
  (forall f, In f (png_files w) -> In (parent (fst f)) (dirs w)).

(** The two exceptions the script raises itself. *)
Inductive Exception : Type :=
| RuntimeError (msg : string)
| FileNotFoundError (msg : string).

(** The class of an exception, what an [except] clause tells apart. *)
Inductive ErrorKind : Type :=
| KRuntimeError
| KFileNotFoundError.

Definition kind_of (e : Exception) : ErrorKind :=
  match e with
  | RuntimeError _ => KRuntimeError
  | FileNotFoundError _ => KFileNotFoundError
  end.

Inductive Result (A : Type) : Type :=
| Ok (a : A)
| Raise (e : Exception).

Arguments Ok {A} a.
Arguments Raise {A} e.

Definition raised {A : Type} (r : Result A) : bool :=
  match r with
  | Ok _ => false
  | Raise _ => true
  end.

(** Lines 18-20. *)
Definition timestamp_str (w : World) : string :=
  let now := utcnow w in
  strftime now.

(** Lines 23-26: [mkdir(parents=True, exist_ok=True)] on a one-part path. *)
Definition ensure_dir (path : string) (w : World) : string * World :=
  let w' :=
    if existsb (String.eqb path) (dirs w) then w
    else mkWorld (utcnow w) (path :: dirs w) (csv_files w) (png_files w) in
  (path, w').

(** Writing a file replaces what was stored under the same path. *)
Definition write_file {B : Type} (p : Path) (body : B) (files : list (Path * B))
    : list (Path * B) :=
  (p, body) :: filter (fun f => negb (path_eqb (fst f) p)) files.

(** [str.endswith] *)
Definition endswith (s suffix : string) : bool :=
  (String.length suffix <=? String.length s)%nat
  && String.eqb
       (substring (String.length s - String.length suffix) (String.length suffix) s)
       suffix.

(** [data_dir.glob("*.csv")]: the table files directly in [dir]. *)
Definition glob_csv (dir : string) (w : World) : list (Path * list CsvRow) :=
  filter (fun f => String.eqb (parent (fst f)) dir && endswith (name (fst f)) ".csv")
         (csv_files w).

(** [files[-1]] when [files] is not empty. *)
Definition last_file {B : Type} (files : list (Path * B)) : option (Path * B) :=
  match rev files with
  | [] => None
  | f :: _ => Some f
  end.

(** [sorted(data_dir.glob("*.csv"))] *)
Definition sorted_files {B : Type} (files : list (Path * B)) : list (Path * B) :=
  sort_by (fun f g => path_le (fst f) (fst g)) files.

(** ** The retriever *)

(** Line 15. *)
Definition FAANG : list string := ["META"; "AAPL"; "AMZN"; "NFLX"; "GOOG"].

(** Lines 50-51: the time axis becomes a column and the ticker is attached. *)
Definition tag (t : string) (b : Bar) : PriceRow :=
  mkPriceRow (bDatetime b) (bOpen b) (bHigh b) (bLow b) (bClose b) (bVolume b) t.

Section Retriever.
(** The market-data source: the hourly frame of a ticker over the five days
    that end at the given reading.  It is empty when the source has nothing. *)
Variable yf_download : string -> DateTime -> list Bar.
(** How [to_csv] prints a float. *)
Variable repr : float -> string.

(** Lines 37-57: the frames of the tickers that returned rows, in the order
    of [tickers]. *)
Fixpoint fetch (end_ : DateTime) (tickers : list string) : list (list PriceRow) :=
  match tickers with
  | [] => []
  | t :: rest =>
      let df := yf_download t end_ in
      if empty df then fetch end_ rest
      else map (tag t) df :: fetch end_ rest
  end.

Definition csv_line (r : PriceRow) : CsvRow :=
  mkCsvRow (Datetime r) (repr (Open r)) (repr (High r)) (repr (Low r))
           (repr (Close r)) (repr (Volume r)) (Ticker r).

(** [combined.to_csv(out_path, index=False)] *)
Definition to_csv (combined : list PriceRow) (out_path : Path) (w : World) : World :=
  mkWorld (utcnow w) (dirs w)
          (write_file out_path (map csv_line combined) (csv_files w))
          (png_files w).

(** Lines 62-63. *)
Definition combined_frame (dfs : list (list PriceRow)) : list PriceRow :=
  sort_by le_Datetime_Ticker (List.concat dfs).

(** Lines 29-68. *)
Definition get_data (tickers : list string) (w : World) : Result Path * World :=
  let end_ := utcnow w in
  let dfs := fetch end_ tickers in
  if empty dfs
  then (Raise (RuntimeError "No data downloaded. Check tickers or network."), w)
  else
    let combined := combined_frame dfs in
    let (data_dir, w1) := ensure_dir "data" w in
    let out_path := mkPath data_dir (timestamp_str w1 ++ ".csv") in
    (Ok out_path, to_csv combined out_path w1).
End Retriever.

(** ** The normalizer and plotter *)

(** [latest.stem] for a name that ends in a four-character suffix. *)
Definition stem (file_name : string) : string :=
  substring 0 (String.length file_name - 4) file_name.

(** [s.split("-")[0]] *)
Fixpoint before_dash (s : string) : string :=
  match s with
  | EmptyString => EmptyString
  | String c s' => if Ascii.eqb c "-"%char then EmptyString else String c (before_dash s')
  end.

(** [df.groupby("Ticker")] visits the tickers once each, in sorted order. *)
Definition group_keys (tickers : list string) : list string :=
  sort_by String.leb (nodup string_dec tickers).

(** Lines 92-95 for one ticker: the rows of the ticker whose NormClose is not
    missing, as a line when there are any. *)
Definition plot_line (t : string) (frame : list (NumRow * Scalar))
    : list (string * list (Z * Scalar)) :=
  let g := filter (fun rv => String.eqb (nTicker (fst rv)) t) frame in
  let g := filter (fun rv => negb (isna (snd rv))) g in
  if empty g then []
  else [(t, map (fun rv => (nDatetime (fst rv), snd rv)) g)].

Definition plot_lines (frame : list (NumRow * Scalar))
    : list (string * list (Z * Scalar)) :=
  flat_map (fun t => plot_line t frame) (group_keys (map (fun rv => nTicker (fst rv)) frame)).

Section Plotter.
(** The numeric parser of pandas: the float a cell denotes, if any. *)
Variable parse_float : string -> option float.

(** [pd.to_numeric(..., errors="coerce")] on one cell. *)
Definition to_numeric (cell : string) : float :=
  match parse_float cell with
  | Some x => x
  | None => nan
  end.

(** Lines 83-85: sort by (Ticker, Datetime), then make Close numeric. *)
Definition numeric_frame (rows : list CsvRow) : list NumRow :=
  map (fun r => mkNumRow (csvDatetime r) (csvTicker r) (to_numeric (csvClose r)))
      (sort_by le_Ticker_Datetime rows).

(** Line 89: the frame with its NormClose column. *)
Definition normalized_frame (rows : list CsvRow) : list (NumRow * Scalar) :=
  let df := numeric_frame rows in
  List.combine df (transform _normalize df).

(** Lines 91-103. *)
Definition draw (latest : Path) (frame : list (NumRow * Scalar)) : Chart :=
  let title_date := before_dash (stem (name latest)) in
  mkChart ("FAANG Normalized Close — " ++ title_date)
          "Time" "Normalized Close (start=1.0)"
          (plot_lines frame).

Definition savefig (c : Chart) (out_path : Path) (w : World) : World :=
  mkWorld (utcnow w) (dirs w) (csv_files w) (write_file out_path c (png_files w)).

(** Lines 71-109. *)
Definition plot_data (w : World) : Result Path * World :=
  let (data_dir, w1) := ensure_dir "data" w in
  let files := sorted_files (glob_csv data_dir w1) in
  match last_file files with
  | None => (Raise (FileNotFoundError "No CSV files in data/. Run download first."), w1)
  | Some (latest, rows) =>
      let frame := normalized_frame rows in
      let chart := draw latest frame in
      let (plots_dir, w2) := ensure_dir "plots" w1 in
      let out_path := mkPath plots_dir (timestamp_str w2 ++ ".png") in
      (Ok out_path, savefig chart out_path w2)
  end.
End Plotter.

(** ** The value the spec gives to a row *)

(** NormalizedSeries of the spec: close / base, where base is the first
    non-missing close of the row's ticker; undefined when there is no base or
    the base is zero. *)
Definition spec_norm (df : list NumRow) (r : NumRow) : Scalar :=
  match first_valid (map nClose (group (nTicker r) df)) with
  | Some b => if (b =? 0)%float then NA else Num (nClose r / b)%float
  | None => NA
  end.

(** The frame position of the first row of ticker [t] with a close. *)
Fixpoint find_index {A : Type} (p : A -> bool) (l : list A) : option nat :=
  match l with
  | [] => None
  | x :: l' => if p x then Some O else option_map S (find_index p l')
  end.

Definition base_position (t : string) (df : list NumRow) : option nat :=
  find_index (fun r => String.eqb (nTicker r) t && negb (is_nan (nClose r))) df.


(** ** The command line *)

(** The positional argument of the script. *)
Inductive Action : Type :=
| download
| plot
| all.

(** [str(path)] *)
Definition path_str (p : Path) : string := (parent p ++ "/" ++ name p)%string.

Section Main.
Variable yf_download : string -> DateTime -> list Bar.
Variable repr : float -> string.
Variable parse_float : string -> option float.
(** The reading of the clock once the download step has returned, from the
    reading it ran with: line 106 reads the clock again. *)
Variable later : DateTime -> DateTime.

(** Lines 117-119: the download step, with what it prints; the clock has
    moved on when it returns. *)
Definition main_download (action : Action) (w : World) : Result (list string) * World :=
  match action with
  | download | all =>
      match get_data yf_download repr FAANG w with
      | (Ok csv_path, w') =>
          (Ok [("Saved data: " ++ path_str csv_path)%string],
           at_time (later (utcnow w')) w')
      | (Raise e, w') => (Raise e, w')
      end
  | plot => (Ok [], w)
  end.

(** Lines 120-122: the plot step. *)
Definition main_plot (action : Action) (w : World) : Result (list string) * World :=
  match action with
  | plot | all =>
      match plot_data parse_float w with
      | (Ok png_path, w') => (Ok [("Saved plot: " ++ path_str png_path)%string], w')
      | (Raise e, w') => (Raise e, w')
      end
  | download => (Ok [], w)
  end.

(** Lines 112-122: an exception of the first step ends the run. *)
Definition main (action : Action) (w : World) : Result (list string) * World :=
  match main_download action w with
  | (Ok out1, w1) =>
      match main_plot action w1 with
      | (Ok out2, w2) => (Ok (out1 ++ out2)%list, w2)
      | (Raise e, w2) => (Raise e, w2)
      end
  | (Raise e, w1) => (Raise e, w1)
  end.
End Main.

(** The path [plot_data] returns when it has loaded a table. *)
Definition plot_out (w : World) : Path :=
  mkPath "plots" (timestamp_str w ++ ".png").

(** The path [get_data] returns when it has rows to write. *)
Definition data_out (w : World) : Path :=
  mkPath "data" (timestamp_str w ++ ".csv").

(** The closes of one ticker, in frame order. *)
Definition closes (t : string) (df : list NumRow) : Series :=
  map nClose (group t df).

(** The rows a line is drawn from (lines 92-93): the rows of the ticker
    whose NormClose is not missing. *)
Definition line_rows (t : string) (frame : list (NumRow * Scalar))
    : list (NumRow * Scalar) :=
  filter (fun rv => negb (isna (snd rv)))
         (filter (fun rv => String.eqb (nTicker (fst rv)) t) frame).

(** The world with one more stored table, as another program could leave it. *)
Definition add_csv_file (f : Path * list CsvRow) (w : World) : World :=
  mkWorld (utcnow w) (dirs w) (f :: csv_files w) (png_files w).

(** The columns of a downloaded row that [plot_data] works with. *)
Definition num_row (r : PriceRow) : NumRow :=
  mkNumRow (Datetime r) (Ticker r) (Close r).

(** ** Worked inputs *)

(** A parser that knows the cells of the worked inputs. *)
Definition demo_parse (cell : string) : option float :=
  if String.eqb cell "10" then Some 10%float
  else if String.eqb cell "11" then Some 11%float
  else if String.eqb cell "12" then Some 12%float
  else if String.eqb cell "100" then Some 100%float
  else if String.eqb cell "90" then Some 90%float
  else if String.eqb cell "0" then Some 0%float
  else if String.eqb cell "-5" then Some (-5)%float
  else if String.eqb cell "-inf" then Some neg_infinity
  else None.

Definition demo_repr (x : float) : string :=
  if (x =? 10)%float then "10"
  else if (x =? 11)%float then "11"
  else if (x =? 12)%float then "12"
  else if (x =? 100)%float then "100"
  else if (x =? 90)%float then "90"
  else "0".

Definition csv_row (d : Z) (t close : string) : CsvRow :=
  mkCsvRow d "" "" "" close "" t.

(** Tickers A and B of the end-to-end scenario, C with a cell that is not a
    number, D with a negative first close, E whose first close is zero. *)
Definition demo_rows : list CsvRow :=
  [csv_row 1 "A" "10"; csv_row 1 "B" "100"; csv_row 2 "A" "11";
   csv_row 2 "B" "90"; csv_row 3 "A" "12"; csv_row 3 "C" "n/a";
   csv_row 1 "D" "-5"; csv_row 2 "D" "10";
   csv_row 1 "E" "oops"; csv_row 2 "E" "0"; csv_row 3 "E" "10"].

(** A ticker whose first close is minus infinity: pandas reads the cell
    [-inf] as that float, and [dropna] keeps it. *)
Definition inf_rows : list CsvRow :=
  [csv_row 1 "D" "-inf"; csv_row 2 "D" "10"].

Definition demo_now : DateTime := mkDateTime 2024 1 2 3 4 5.

(** A world with two tables under [data/]. *)
Definition demo_world : World :=
  mkWorld demo_now ["data"]
          [(mkPath "data" "20240101-000000.csv", demo_rows);
           (mkPath "data" "20231231-235959.csv", inf_rows)]
          [].

(** A world where nothing was ever written. *)
Definition fresh_world : World := mkWorld demo_now [] [] [].

Definition bar (d : Z) (close : float) : Bar := mkBar d 0 0 0 close 0.

(** A source that has rows for A and B only. *)
Definition demo_download (t : string) (end_ : DateTime) : list Bar :=
  if String.eqb t "A" then [bar 1 10; bar 2 11; bar 3 12]
  else if String.eqb t "B" then [bar 1 100; bar 2 90]
  else [].

(** A ticker whose first cell is not a number and whose first close comes
    an hour later. *)
Definition late_rows : list CsvRow :=
  [csv_row 1 "E2" "oops"; csv_row 2 "E2" "10"; csv_row 3 "E2" "11";
   csv_row 1 "A" "12"].

(** A source that has nothing for any ticker. *)
Definition no_download (t : string) (end_ : DateTime) : list Bar := [].

(** A source that has rows for AAPL only. *)
Definition aapl_download (t : string) (end_ : DateTime) : list Bar :=
  if String.eqb t "AAPL" then [bar 1 10; bar 2 11] else [].

(** Ticker A with a cell in the middle that is not a number, and a base to
    divide it by. *)
Definition gap_rows : list CsvRow :=
  [csv_row 1 "A" "10"; csv_row 2 "A" "n/a"; csv_row 3 "A" "12"].

Definition gap_world : World :=
  mkWorld demo_now ["data"] [(mkPath "data" "20240101-000000.csv", gap_rows)] [].

(** A clock that is one minute further when it is read again. *)
Definition one_minute_later (d : DateTime) : DateTime :=
  mkDateTime (year d) (month d) (day d) (hour d) (minute d + 1) (second d).
(** * Facts about binary64 *)

Module Float64.

Lemma is_nan_spec (x : float) : is_nan x = true <-> Prim2SF x = S754_nan.
Proof.
  unfold is_nan. rewrite eqb_spec. unfold SFeqb.
  destruct (Prim2SF x) as [s|s| |s m e]; simpl.
  - split; discriminate.
  - destruct s; split; discriminate.
  - split; reflexivity.
  - destruct s; rewrite Z.compare_refl, Pos.compare_cont_refl; split; discriminate.
Qed.

Lemma div_nan_l (x y : float) : is_nan x = true -> is_nan (x / y)%float = true.
Proof.
  rewrite !is_nan_spec, div_spec. intros ->. reflexivity.
Qed.

Lemma div_eucl_shift (m : positive) :
  Z.div_eucl (Z.shiftl (Zpos m) 53) (Zpos m) = (9007199254740992, 0).
Proof.
  rewrite Z.shiftl_mul_pow2 by lia.
  pose proof (Z_div_mod (Z.pos m * 2 ^ 53) (Z.pos m) (eq_refl _)) as H.
  destruct (Z.div_eucl (Z.pos m * 2 ^ 53) (Z.pos m)) as [q r].
  destruct H as [H1 H2].
  assert (q = 2 ^ 53) by nia.
  assert (r = 0) by nia.
  subst. reflexivity.
Qed.

Lemma SFdiv_self (s : bool) (m : positive) (e : Z) :
  SFdiv prec emax (S754_finite s m e) (S754_finite s m e) = Prim2SF 1.
Proof.
  unfold SFdiv, SFdiv_core_binary.
  rewrite !Z.sub_diag.
  change (Z.min (fexp prec emax 0) 0) with (-53).
  change (0 - -53) with 53.
  cbv beta iota zeta.
  rewrite div_eucl_shift.
  assert (Hloc : new_location (Z.pos m) 0 = loc_Exact).
  { unfold new_location. destruct (Z.even (Z.pos m)); reflexivity. }
  rewrite Hloc, xorb_nilpotent.
  reflexivity.
Qed.

(** A finite non-zero float divided by itself is exactly one. *)
Lemma div_self (b : float) :
  is_nan b = false -> (b =? 0)%float = false -> is_infinity b = false ->
  (b / b)%float = 1%float.
Proof.
  intros Hnan Hzero Hinf. apply Prim2SF_inj. rewrite div_spec.
  unfold is_nan in Hnan. unfold is_infinity in Hinf.
  rewrite eqb_spec in Hnan, Hzero, Hinf. rewrite abs_spec in Hinf.
  change (Prim2SF 0) with (S754_zero false) in Hzero.
  change (Prim2SF infinity) with (S754_infinity false) in Hinf.
  destruct (Prim2SF b) as [s|s| |s m e].
  - discriminate Hzero.
  - discriminate Hinf.
  - discriminate Hnan.
  - apply SFdiv_self.
Qed.

Lemma ltb_zero_not_nan (b : float) : (b <? 0)%float = true -> is_nan b = false.
Proof.
  intros H. destruct (is_nan b) eqn:E; [|reflexivity].
  apply is_nan_spec in E. rewrite ltb_spec, E in H. discriminate H.
Qed.

Lemma ltb_zero_ne_zero (b : float) : (b <? 0)%float = true -> (b =? 0)%float = false.
Proof.
  rewrite ltb_spec, eqb_spec. change (Prim2SF 0) with (S754_zero false).
  unfold SFltb, SFeqb.
  destruct (Prim2SF b) as [s|s| |s m e]; simpl; try discriminate.
  - destruct s; reflexivity.
  - destruct s; reflexivity.
Qed.

End Float64.

(** * The transform against the value of the spec *)

Lemma dropna_head_not_nan (s : Series) (x : float) (l : Series) :
  dropna s = x :: l -> is_nan x = false.
Proof.
  intros H.
  assert (Hin : In x (dropna s)) by (rewrite H; left; reflexivity).
  apply filter_In in Hin. destruct Hin as [_ Hx].
  now apply negb_true_iff in Hx.
Qed.

Lemma first_valid_not_nan (s : Series) (b : float) :
  first_valid s = Some b -> is_nan b = false.
Proof.
  unfold first_valid. destruct (dropna s) as [|x l] eqn:E; [discriminate|].
  intros [= <-]. eapply dropna_head_not_nan; eassumption.
Qed.

Lemma first_valid_In (s : Series) (b : float) :
  first_valid s = Some b -> In b s.
Proof.
  unfold first_valid. destruct (dropna s) as [|x l] eqn:E; [discriminate|].
  intros [= <-].
  assert (Hin : In x (dropna s)) by (rewrite E; left; reflexivity).
  now apply filter_In in Hin.
Qed.

(** [_normalize] by cases on the first non-missing value. *)
Lemma _normalize_cases (s : Series) :
  _normalize s =
  match first_valid s with
  | Some b => if (b =? 0)%float then AScalar NA else ASeries (div_series s b)
  | None => AScalar NA
  end.
Proof.
  unfold _normalize, first_valid.
  destruct (dropna s) as [|x l] eqn:E; simpl; [reflexivity|].
  unfold notna. simpl.
  rewrite (dropna_head_not_nan _ _ _ E). simpl.
  destruct (x =? 0)%float; reflexivity.
Qed.

Lemma group_app (t : string) (a b : list NumRow) :
  group t (a ++ b) = group t a ++ group t b.
Proof. apply filter_app. Qed.

Lemma group_cons_same (r : NumRow) (l : list NumRow) :
  group (nTicker r) (r :: l) = r :: group (nTicker r) l.
Proof. unfold group. simpl. now rewrite String.eqb_refl. Qed.

Lemma nth_map_middle {A B : Type} (f : A -> B) (l l' : list A) (a : A) (d : B) :
  nth (List.length l) (map f (l ++ a :: l')) d = f a.
Proof.
  rewrite map_app. simpl.
  rewrite <- (length_map f l). apply nth_middle.
Qed.

(** The value put back at a row is the value of the spec for that row. *)
Lemma transform_from_spec (df pre rest : list NumRow) :
  df = pre ++ rest ->
  transform_from _normalize df pre rest = map (spec_norm df) rest.
Proof.
  revert pre. induction rest as [|r rest IH]; intros pre Hdf; simpl; [reflexivity|].
  f_equal.
  - unfold spec_norm. rewrite _normalize_cases.
    assert (Hg : group (nTicker r) df
                 = group (nTicker r) pre ++ r :: group (nTicker r) rest).
    { rewrite Hdf, group_app, group_cons_same. reflexivity. }
    destruct (first_valid (map nClose (group (nTicker r) df))) as [b|] eqn:Eb.
    + destruct (b =? 0)%float.
      * simpl. apply nth_repeat.
      * simpl. unfold div_series. rewrite !map_map, Hg.
        apply (nth_map_middle (fun x => Num (nClose x / b)%float)).
    + simpl. apply nth_repeat.
  - apply IH. rewrite Hdf, <- app_assoc. reflexivity.
Qed.

Lemma transform_spec (df : list NumRow) :
  transform _normalize df = map (spec_norm df) df.
Proof. unfold transform. now apply transform_from_spec. Qed.

Lemma combine_map_self {A B : Type} (f : A -> B) (l : list A) :
  List.combine l (map f l) = map (fun x => (x, f x)) l.
Proof. induction l as [|x l IH]; simpl; [reflexivity|now rewrite IH]. Qed.

Section PlotterFacts.
Variable parse_float : string -> option float.

(** The frame of line 89, row by row. *)
Lemma normalized_frame_spec (rows : list CsvRow) :
  normalized_frame parse_float rows =
  map (fun r => (r, spec_norm (numeric_frame parse_float rows) r))
      (numeric_frame parse_float rows).
Proof.
  unfold normalized_frame. rewrite transform_spec. apply combine_map_self.
Qed.

Lemma normalized_frame_fst (rows : list CsvRow) :
  map fst (normalized_frame parse_float rows) = numeric_frame parse_float rows.
Proof.
  rewrite normalized_frame_spec, map_map. simpl. apply map_id.
Qed.

Lemma normalized_frame_nth (rows : list CsvRow) (i : nat) (r : NumRow) (v : Scalar) :
  nth_error (normalized_frame parse_float rows) i = Some (r, v) ->
  nth_error (numeric_frame parse_float rows) i = Some r /\
  v = spec_norm (numeric_frame parse_float rows) r.
Proof.
  rewrite normalized_frame_spec, nth_error_map.
  destruct (nth_error (numeric_frame parse_float rows) i) as [r'|]; simpl; [|discriminate].
  intros [= <- <-]. split; reflexivity.
Qed.
End PlotterFacts.

(** * Facts about the orders and the sort *)

Module StringOrder.

Lemma ascii_compare_refl (c : ascii) : Ascii.compare c c = Eq.
Proof. unfold Ascii.compare. apply N.compare_refl. Qed.

Lemma ascii_compare_lt_trans (a b c : ascii) :
  Ascii.compare a b = Lt -> Ascii.compare b c = Lt -> Ascii.compare a c = Lt.
Proof.
  unfold Ascii.compare. rewrite !N.compare_lt_iff. apply N.lt_trans.
Qed.

Lemma compare_refl (s : string) : String.compare s s = Eq.
Proof.
  induction s as [|c s IH]; simpl; [reflexivity|].
  now rewrite ascii_compare_refl.
Qed.

Lemma compare_lt_trans (a b c : string) :
  String.compare a b = Lt -> String.compare b c = Lt -> String.compare a c = Lt.
Proof.
  revert b c. induction a as [|x a IH]; intros [|y b] [|z c]; simpl;
    try discriminate; try reflexivity.
  destruct (Ascii.compare x y) eqn:Exy; try discriminate;
    destruct (Ascii.compare y z) eqn:Eyz; try discriminate; intros H1 H2.
  - apply Ascii.compare_eq_iff in Exy, Eyz. subst.
    rewrite ascii_compare_refl. eapply IH; eassumption.
  - apply Ascii.compare_eq_iff in Exy. subst. now rewrite Eyz.
  - apply Ascii.compare_eq_iff in Eyz. subst. now rewrite Exy.
  - now rewrite (ascii_compare_lt_trans _ _ _ Exy Eyz).
Qed.

Lemma ltb_lt (a b : string) : String.ltb a b = true <-> String.compare a b = Lt.
Proof.
  unfold String.ltb. destruct (String.compare a b); split; congruence.
Qed.

Lemma leb_le (a b : string) :
  String.leb a b = true <-> String.compare a b = Lt \/ a = b.
Proof.
  unfold String.leb. destruct (String.compare a b) eqn:E; split; intros H.
  - right. now apply String.compare_eq_iff.
  - reflexivity.
  - now left.
  - reflexivity.
  - discriminate.
  - destruct H as [H|H]; [discriminate|].
    subst. rewrite compare_refl in E. discriminate.
Qed.

Lemma leb_refl (a : string) : String.leb a a = true.
Proof. apply leb_le. now right. Qed.

Lemma leb_trans (a b c : string) :
  String.leb a b = true -> String.leb b c = true -> String.leb a c = true.
Proof.
  rewrite !leb_le. intros [H1|H1] [H2|H2]; subst; auto.
  left. eapply compare_lt_trans; eassumption.
Qed.

Lemma ltb_irrefl (a : string) : String.ltb a a = false.
Proof. unfold String.ltb. now rewrite compare_refl. Qed.

Lemma ltb_leb (a b : string) : String.ltb a b = true -> String.leb a b = true.
Proof. rewrite ltb_lt, leb_le. auto. Qed.

(** Exactly one of [a < b], [a = b], [b < a]. *)
Lemma trichotomy (a b : string) :
  String.ltb a b = true \/ a = b \/ String.ltb b a = true.
Proof.
  rewrite !ltb_lt. rewrite (String.compare_antisym b a).
  destruct (String.compare a b) eqn:E; simpl; auto.
  right. left. now apply String.compare_eq_iff.
Qed.

Lemma ltb_antisym (a b : string) :
  String.ltb a b = true -> String.ltb b a = false.
Proof.
  unfold String.ltb. rewrite (String.compare_antisym a b).
  destruct (String.compare b a); simpl; congruence.
Qed.

Lemma leb_ltb_false (a b : string) :
  String.leb a b = true -> String.ltb b a = false.
Proof.
  rewrite leb_le. intros [H|H].
  - apply ltb_antisym. now apply ltb_lt.
  - subst. apply ltb_irrefl.
Qed.

Lemma ltb_trans (a b c : string) :
  String.ltb a b = true -> String.ltb b c = true -> String.ltb a c = true.
Proof. rewrite !ltb_lt. apply compare_lt_trans. Qed.

End StringOrder.

Section SortFacts.
Context {A : Type}.
Variable le : A -> A -> bool.
Hypothesis le_total : forall a b, le a b = true \/ le b a = true.
Hypothesis le_trans : forall a b c, le a b = true -> le b c = true -> le a c = true.

Lemma insert_by_perm (x : A) (l : list A) : Permutation (insert_by le x l) (x :: l).
Proof.
  induction l as [|y l IH]; simpl; [apply Permutation_refl|].
  destruct (le x y); [apply Permutation_refl|].
  eapply perm_trans; [apply perm_skip, IH|apply perm_swap].
Qed.

Lemma sort_by_perm (l : list A) : Permutation (sort_by le l) l.
Proof.
  induction l as [|x l IH]; simpl; [constructor|].
  eapply perm_trans; [apply insert_by_perm|now apply perm_skip].
Qed.

Lemma sort_by_In (x : A) (l : list A) : In x (sort_by le l) <-> In x l.
Proof.
  split; apply Permutation_in; [|apply Permutation_sym]; apply sort_by_perm.
Qed.

Lemma insert_by_sorted (x : A) (l : list A) :
  StronglySorted (fun a b => le a b = true) l -> StronglySorted (fun a b => le a b = true) (insert_by le x l).
Proof.
  induction 1 as [|y l Hs IH Hy]; simpl.
  - constructor; constructor.
  - destruct (le x y) eqn:E.
    + constructor; [now constructor|].
      constructor; [exact E|].
      eapply Forall_impl; [|exact Hy]. intros z Hz. eapply le_trans; eassumption.
    + constructor; [exact IH|].
      apply (Permutation_Forall (Permutation_sym (insert_by_perm x l))).
      constructor; [|exact Hy].
      destruct (le_total x y) as [H|H]; [congruence|exact H].
Qed.

Lemma sort_by_sorted (l : list A) : StronglySorted (fun a b => le a b = true) (sort_by le l).
Proof.
  induction l as [|x l IH]; simpl; [constructor|now apply insert_by_sorted].
Qed.

(** Two rows of which one is strictly before the other can be inserted in
    either order. *)
Lemma insert_by_comm_lt (a b : A) (l : list A) :
  le a b = true -> le b a = false ->
  insert_by le a (insert_by le b l) = insert_by le b (insert_by le a l).
Proof.
  intros Hab Hba. induction l as [|y l IH]; simpl.
  - now rewrite Hab, Hba.
  - destruct (le b y) eqn:Eby.
    + simpl. rewrite Hab, (le_trans a b y Hab Eby). simpl.
      now rewrite Hba, Eby.
    + simpl. destruct (le a y) eqn:Eay; simpl.
      * now rewrite Hba, Eby.
      * now rewrite Eby, IH.
Qed.

Lemma insert_by_comm (a b : A) (l : list A) :
  le a b = false \/ le b a = false ->
  insert_by le a (insert_by le b l) = insert_by le b (insert_by le a l).
Proof.
  intros [H|H].
  - symmetry. apply insert_by_comm_lt; [|exact H].
    destruct (le_total a b); congruence.
  - apply insert_by_comm_lt; [|exact H].
    destruct (le_total a b); congruence.
Qed.

Lemma sort_by_app (l1 l2 : list A) :
  sort_by le (l1 ++ l2) = fold_right (insert_by le) (sort_by le l2) l1.
Proof. unfold sort_by. apply fold_right_app. Qed.

Lemma insert_fold_comm (a : A) (l1 s : list A) :
  (forall y, In y l1 -> le a y = false \/ le y a = false) ->
  insert_by le a (fold_right (insert_by le) s l1)
  = fold_right (insert_by le) (insert_by le a s) l1.
Proof.
  induction l1 as [|y l1 IH]; intros H; simpl; [reflexivity|].
  rewrite insert_by_comm by (apply H; now left).
  f_equal. apply IH. intros z Hz. apply H. now right.
Qed.

(** Two blocks whose rows are never tied can be exchanged before sorting. *)
Lemma sort_by_swap_blocks (l1 l2 l : list A) :
  (forall x y, In x l1 -> In y l2 -> le x y = false \/ le y x = false) ->
  sort_by le (l1 ++ l2 ++ l) = sort_by le (l2 ++ l1 ++ l).
Proof.
  intros H. rewrite !sort_by_app.
  induction l1 as [|x l1 IH]; simpl; [reflexivity|].
  rewrite IH by (intros; apply H; [now right|assumption]).
  apply insert_fold_comm. intros y Hy. apply H; [now left|assumption].
Qed.

(** The last element of the sorted list is above every element. *)
Lemma sorted_last_max (l : list A) (m : A) :
  StronglySorted (fun a b => le a b = true) l -> le m m = true ->
  nth_error (rev l) 0 = Some m -> forall x, In x l -> le x m = true.
Proof.
  intros Hs Hm. induction Hs as [|y l Hs IH Hy]; simpl; intros Hl x Hx; [contradiction|].
  destruct l as [|z l'].
  - simpl in Hl. injection Hl as <-. destruct Hx as [<-|[]]. exact Hm.
  - assert (Hl' : nth_error (rev (z :: l')) 0 = Some m).
    { revert Hl. simpl. destruct (rev l' ++ [z]) eqn:E.
      - destruct (rev l'); discriminate.
      - simpl. auto. }
    destruct Hx as [<-|Hx]; [|now apply IH].
    assert (Hin : In m (z :: l')).
    { apply in_rev. destruct (rev (z :: l')); [discriminate|].
      injection Hl' as <-. now left. }
    rewrite Forall_forall in Hy. now apply Hy.
Qed.
End SortFacts.

(** The three sort keys are total and transitive. *)

Lemma le_Datetime_Ticker_iff (a b : PriceRow) :
  le_Datetime_Ticker a b = true <->
  Datetime a < Datetime b \/
  (Datetime a = Datetime b /\ String.leb (Ticker a) (Ticker b) = true).
Proof.
  unfold le_Datetime_Ticker, lex_le. simpl.
  rewrite orb_true_iff, andb_true_iff, Z.ltb_lt, Z.eqb_eq. reflexivity.
Qed.

Lemma le_Datetime_Ticker_total (a b : PriceRow) :
  le_Datetime_Ticker a b = true \/ le_Datetime_Ticker b a = true.
Proof.
  rewrite !le_Datetime_Ticker_iff.
  destruct (Z.lt_total (Datetime a) (Datetime b)) as [H|[H|H]]; auto.
  destruct (String.leb_total (Ticker a) (Ticker b)); auto.
Qed.

Lemma le_Datetime_Ticker_trans (a b c : PriceRow) :
  le_Datetime_Ticker a b = true -> le_Datetime_Ticker b c = true ->
  le_Datetime_Ticker a c = true.
Proof.
  rewrite !le_Datetime_Ticker_iff.
  intros [H1|[H1 L1]] [H2|[H2 L2]]; try (left; lia).
  right. split; [lia|]. eapply StringOrder.leb_trans; eassumption.
Qed.

(** Rows of different tickers are never tied under the key of line 63. *)
Lemma le_Datetime_Ticker_untied (a b : PriceRow) :
  Ticker a <> Ticker b ->
  le_Datetime_Ticker a b = false \/ le_Datetime_Ticker b a = false.
Proof.
  intros Hne.
  destruct (le_Datetime_Ticker a b) eqn:Eab; [|now left].
  destruct (le_Datetime_Ticker b a) eqn:Eba; [|now right].
  exfalso. apply le_Datetime_Ticker_iff in Eab, Eba.
  destruct Eab as [H1|[H1 L1]], Eba as [H2|[H2 L2]]; try lia.
  apply Hne. now apply String.leb_antisym.
Qed.

Lemma path_le_iff (p q : Path) :
  path_le p q = true <->
  String.ltb (parent p) (parent q) = true \/
  (parent p = parent q /\ String.leb (name p) (name q) = true).
Proof.
  unfold path_le, lex_le. simpl.
  rewrite orb_true_iff, andb_true_iff, String.eqb_eq. reflexivity.
Qed.

Lemma path_le_refl (p : Path) : path_le p p = true.
Proof. apply path_le_iff. right. split; [reflexivity|apply StringOrder.leb_refl]. Qed.

Lemma path_le_total (p q : Path) : path_le p q = true \/ path_le q p = true.
Proof.
  rewrite !path_le_iff.
  destruct (StringOrder.trichotomy (parent p) (parent q)) as [H|[H|H]]; auto.
  destruct (String.leb_total (name p) (name q)); auto.
Qed.

Lemma path_le_trans (p q r : Path) :
  path_le p q = true -> path_le q r = true -> path_le p r = true.
Proof.
  rewrite !path_le_iff.
  intros [H1|[H1 L1]] [H2|[H2 L2]].
  - left. eapply StringOrder.ltb_trans; eassumption.
  - left. now rewrite <- H2.
  - left. now rewrite H1.
  - right. split; [congruence|]. eapply StringOrder.leb_trans; eassumption.
Qed.

Lemma le_Ticker_Datetime_iff (a b : CsvRow) :
  le_Ticker_Datetime a b = true <->
  String.ltb (csvTicker a) (csvTicker b) = true \/
  (csvTicker a = csvTicker b /\ csvDatetime a <= csvDatetime b).
Proof.
  unfold le_Ticker_Datetime, lex_le. simpl.
  rewrite orb_true_iff, andb_true_iff, String.eqb_eq, Z.leb_le. reflexivity.
Qed.

Lemma le_Ticker_Datetime_total (a b : CsvRow) :
  le_Ticker_Datetime a b = true \/ le_Ticker_Datetime b a = true.
Proof.
  rewrite !le_Ticker_Datetime_iff.
  destruct (StringOrder.trichotomy (csvTicker a) (csvTicker b)) as [H|[H|H]]; auto.
  destruct (Z.le_ge_cases (csvDatetime a) (csvDatetime b)); auto.
Qed.

Lemma le_Ticker_Datetime_trans (a b c : CsvRow) :
  le_Ticker_Datetime a b = true -> le_Ticker_Datetime b c = true ->
  le_Ticker_Datetime a c = true.
Proof.
  rewrite !le_Ticker_Datetime_iff.
  intros [H1|[H1 L1]] [H2|[H2 L2]].
  - left. eapply StringOrder.ltb_trans; eassumption.
  - left. now rewrite <- H2.
  - left. now rewrite H1.
  - right. split; [congruence|lia].
Qed.

(** * Facts about the plotter *)

Lemma first_valid_cons (x : float) (s : Series) :
  first_valid (x :: s) = if is_nan x then first_valid s else Some x.
Proof. unfold first_valid, dropna. simpl. destruct (is_nan x); reflexivity. Qed.

Lemma find_index_nth {A : Type} (p : A -> bool) (l : list A) (i : nat) :
  find_index p l = Some i ->
  exists x, nth_error l i = Some x /\ p x = true /\
            forall j y, (j < i)%nat -> nth_error l j = Some y -> p y = false.
Proof.
  revert i. induction l as [|a l IH]; intros i; simpl; [discriminate|].
  destruct (p a) eqn:Ea.
  - intros [= <-]. exists a. repeat split; [assumption|]. intros j y Hj. lia.
  - destruct (find_index p l) as [k|]; simpl; [|discriminate].
    intros [= <-]. destruct (IH k eq_refl) as (x & Hx & Hp & Hbefore).
    exists x. repeat split; try assumption.
    intros [|j] y Hj; simpl.
    + intros [= <-]. exact Ea.
    + apply Hbefore. lia.
Qed.

(** The base position holds the first non-missing close of the ticker. *)
Lemma base_position_first_valid (t : string) (df : list NumRow) (i : nat) :
  base_position t df = Some i ->
  exists r, nth_error df i = Some r /\ nTicker r = t /\
            first_valid (map nClose (group t df)) = Some (nClose r).
Proof.
  unfold base_position. revert i.
  induction df as [|a df IH]; intros i; simpl; [discriminate|].
  destruct (String.eqb (nTicker a) t) eqn:Et; simpl.
  - rewrite first_valid_cons. destruct (is_nan (nClose a)) eqn:En; simpl.
    + destruct (find_index _ df) as [k|]; simpl; [|discriminate].
      intros [= <-]. destruct (IH k eq_refl) as (r & Hr & Ht & Hb).
      exists r. auto.
    + intros [= <-]. exists a. simpl. apply String.eqb_eq in Et. auto.
  - destruct (find_index _ df) as [k|]; simpl; [|discriminate].
    intros [= <-]. destruct (IH k eq_refl) as (r & Hr & Ht & Hb).
    exists r. auto.
Qed.

Lemma first_valid_base_position (t : string) (df : list NumRow) (b : float) :
  first_valid (map nClose (group t df)) = Some b ->
  exists i, base_position t df = Some i.
Proof.
  unfold base_position.
  induction df as [|a df IH]; simpl; [discriminate|].
  destruct (String.eqb (nTicker a) t) eqn:Et; simpl.
  - rewrite first_valid_cons. destruct (is_nan (nClose a)); simpl.
    + intros H. destruct (IH H) as [i ->]. now exists (S i).
    + intros _. now exists O.
  - intros H. destruct (IH H) as [i ->]. now exists (S i).
Qed.

(** A missing close gives a missing normalized value. *)
Lemma spec_norm_nan (df : list NumRow) (r : NumRow) :
  is_nan (nClose r) = true -> isna (spec_norm df r) = true.
Proof.
  intros H. unfold spec_norm.
  destruct (first_valid _) as [b|]; [|reflexivity].
  destruct (b =? 0)%float; [reflexivity|].
  simpl. now apply Float64.div_nan_l.
Qed.

Lemma isna_not_zero (v : Scalar) : isna v = true -> v <> Num 0.
Proof. intros H ->. discriminate H. Qed.

Lemma StronglySorted_map {A B : Type} (RA : A -> A -> Prop) (RB : B -> B -> Prop)
    (f : A -> B) (l : list A) :
  (forall x y, RA x y -> RB (f x) (f y)) ->
  StronglySorted RA l -> StronglySorted RB (map f l).
Proof.
  intros Hf. induction 1 as [|x l Hs IH Hx]; simpl; constructor; [assumption|].
  apply Forall_map. eapply Forall_impl; [|exact Hx]. intros y. apply Hf.
Qed.

Lemma StronglySorted_impl {A : Type} (RA RB : A -> A -> Prop) (l : list A) :
  (forall x y, RA x y -> RB x y) ->
  StronglySorted RA l -> StronglySorted RB l.
Proof.
  intros Hf. induction 1 as [|x l Hs IH Hx]; constructor; [assumption|].
  eapply Forall_impl; [|exact Hx]. intros y. apply Hf.
Qed.

Lemma StronglySorted_filter {A : Type} (RA : A -> A -> Prop) (p : A -> bool) (l : list A) :
  StronglySorted RA l -> StronglySorted RA (filter p l).
Proof.
  induction 1 as [|x l Hs IH Hx]; simpl; [constructor|].
  destruct (p x); [|assumption].
  constructor; [assumption|].
  apply Forall_forall. intros y Hy. apply filter_In in Hy.
  rewrite Forall_forall in Hx. now apply Hx.
Qed.

(** Growing the directory list leaves the files where they are. *)
Lemma ensure_dir_fst (path : string) (w : World) : fst (ensure_dir path w) = path.
Proof. reflexivity. Qed.

Lemma ensure_dir_csv (path : string) (w : World) :
  csv_files (snd (ensure_dir path w)) = csv_files w.
Proof. unfold ensure_dir. simpl. destruct (existsb _ _); reflexivity. Qed.

Lemma ensure_dir_png (path : string) (w : World) :
  png_files (snd (ensure_dir path w)) = png_files w.
Proof. unfold ensure_dir. simpl. destruct (existsb _ _); reflexivity. Qed.

Lemma ensure_dir_utcnow (path : string) (w : World) :
  utcnow (snd (ensure_dir path w)) = utcnow w.
Proof. unfold ensure_dir. simpl. destruct (existsb _ _); reflexivity. Qed.

Lemma existsb_eqb_In (path : string) (l : list string) :
  existsb (String.eqb path) l = true <-> In path l.
Proof.
  rewrite existsb_exists. split.
  - intros (x & Hx & He). apply String.eqb_eq in He. now subst.
  - intros H. exists path. split; [assumption|apply String.eqb_refl].
Qed.

Lemma ensure_dir_dirs (path : string) (w : World) :
  dirs (snd (ensure_dir path w)) = if existsb (String.eqb path) (dirs w) then dirs w
                                   else path :: dirs w.
Proof. unfold ensure_dir. simpl. destruct (existsb _ _); reflexivity. Qed.

Lemma ensure_dir_In (path : string) (w : World) :
  In path (dirs (snd (ensure_dir path w))).
Proof.
  rewrite ensure_dir_dirs. destruct (existsb _ _) eqn:E.
  - now apply existsb_eqb_In.
  - now left.
Qed.

Lemma glob_csv_ensure_dir (dir path : string) (w : World) :
  glob_csv dir (snd (ensure_dir path w)) = glob_csv dir w.
Proof. unfold glob_csv. now rewrite ensure_dir_csv. Qed.

Section PlotDataFacts.
Variable parse_float : string -> option float.

Lemma plot_data_loaded (w : World) (latest : Path) (rows : list CsvRow) :
  last_file (sorted_files (glob_csv "data" w)) = Some (latest, rows) ->
  plot_data parse_float w =
  (Ok (plot_out w),
   savefig (draw latest (normalized_frame parse_float rows)) (plot_out w)
           (snd (ensure_dir "plots" (snd (ensure_dir "data" w))))).
Proof.
  intros H. unfold plot_data.
  destruct (ensure_dir "data" w) as [data_dir w1] eqn:E1.
  assert (Hd : data_dir = "data") by (now rewrite <- (ensure_dir_fst "data" w), E1).
  assert (Hw1 : w1 = snd (ensure_dir "data" w)) by (now rewrite E1).
  subst data_dir. rewrite Hw1, glob_csv_ensure_dir, H.
  destruct (ensure_dir "plots" (snd (ensure_dir "data" w))) as [plots_dir w2] eqn:E2.
  assert (Hp : plots_dir = "plots")
    by (now rewrite <- (ensure_dir_fst "plots" (snd (ensure_dir "data" w))), E2).
  assert (Hw2 : w2 = snd (ensure_dir "plots" (snd (ensure_dir "data" w))))
    by (now rewrite E2).
  subst plots_dir. unfold plot_out, timestamp_str.
  rewrite Hw2, !ensure_dir_utcnow. reflexivity.
Qed.

Lemma plot_data_no_csv (w : World) :
  glob_csv "data" w = [] ->
  plot_data parse_float w =
  (Raise (FileNotFoundError "No CSV files in data/. Run download first."),
   snd (ensure_dir "data" w)).
Proof.
  intros H. unfold plot_data.
  destruct (ensure_dir "data" w) as [data_dir w1] eqn:E1.
  assert (Hd : data_dir = "data") by (now rewrite <- (ensure_dir_fst "data" w), E1).
  assert (Hw1 : w1 = snd (ensure_dir "data" w)) by (now rewrite E1).
  subst data_dir. rewrite Hw1, glob_csv_ensure_dir, H. reflexivity.
Qed.

Lemma savefig_In (c : Chart) (out : Path) (w : World) :
  In (out, c) (png_files (savefig c out w)).
Proof. simpl. now left. Qed.

(** A ticker has a line only if one of its rows has a normalized value. *)
Lemma plot_lines_In (t : string) (frame : list (NumRow * Scalar)) :
  In t (map fst (plot_lines frame)) ->
  exists rv, In rv frame /\ nTicker (fst rv) = t /\ isna (snd rv) = false.
Proof.
  unfold plot_lines. rewrite in_map_iff. intros ([t' pts] & Ht & Hin).
  simpl in Ht. subst t'. apply in_flat_map in Hin.
  destruct Hin as (k & _ & Hk). unfold plot_line in Hk.
  destruct (filter _ (filter _ frame)) as [|rv g] eqn:E; simpl in Hk; [contradiction|].
  destruct Hk as [Hk|[]]. injection Hk as -> _.
  assert (Hrv : In rv (rv :: g)) by now left.
  rewrite <- E in Hrv. apply filter_In in Hrv. destruct Hrv as [Hrv Hna].
  apply filter_In in Hrv. destruct Hrv as [Hrv Ht].
  exists rv. repeat split; [assumption|now apply String.eqb_eq|].
  now apply negb_true_iff in Hna.
Qed.

(** After line 84 the rows of one ticker are in chronological order. *)
Lemma group_chronological (rows : list CsvRow) (t : string) :
  StronglySorted (fun a b => nDatetime a <= nDatetime b)
                 (group t (numeric_frame parse_float rows)).
Proof.
  set (RN := fun a b : NumRow =>
               String.ltb (nTicker a) (nTicker b) = true \/
               (nTicker a = nTicker b /\ nDatetime a <= nDatetime b)).
  assert (Hs : StronglySorted RN (numeric_frame parse_float rows)).
  { unfold numeric_frame.
    apply (StronglySorted_map (fun a b => le_Ticker_Datetime a b = true)).
    - intros x y Hxy. apply le_Ticker_Datetime_iff in Hxy. exact Hxy.
    - apply sort_by_sorted.
      + apply le_Ticker_Datetime_total.
      + apply le_Ticker_Datetime_trans. }
  unfold group.
  induction Hs as [|x l Hs IH Hx]; simpl; [constructor|].
  destruct (String.eqb (nTicker x) t) eqn:Et; [|assumption].
  constructor; [assumption|].
  apply Forall_forall. intros y Hy. apply filter_In in Hy. destruct Hy as [Hy Hty].
  rewrite Forall_forall in Hx. destruct (Hx y Hy) as [Hlt|[_ Hle]]; [|assumption].
  apply String.eqb_eq in Et, Hty. rewrite Et, Hty, StringOrder.ltb_irrefl in Hlt.
  discriminate.
Qed.
End PlotDataFacts.

(** * Normalization *)

Section NormalizationClaims.
Variable parse_float : string -> option float.

(** C1.  For a ticker of the loaded table whose first non-missing close [b],
    taken in the chronological order that sorting by (Ticker, Datetime)
    gives, exists and is not zero: the normalized value of every row of the
    ticker is its close divided by [b], and it is missing, not zero, where
    the close is missing. *)
Theorem normalize_present_base (rows : list CsvRow) (t : string) (b : float) :
  first_valid (closes t (numeric_frame parse_float rows)) = Some b ->
  (b =? 0)%float = false ->
  StronglySorted (fun x y => nDatetime x <= nDatetime y)
                 (group t (numeric_frame parse_float rows)) /\
  map fst (normalized_frame parse_float rows) = numeric_frame parse_float rows /\
  forall i r v,
    nth_error (normalized_frame parse_float rows) i = Some (r, v) ->
    nTicker r = t ->
    v = Num (nClose r / b)%float /\
    (is_nan (nClose r) = true -> isna v = true /\ v <> Num 0).
Proof.
  intros Hb Hz. split; [apply group_chronological|].
  split; [apply normalized_frame_fst|].
  intros i r v Hi Ht. apply normalized_frame_nth in Hi. destruct Hi as [_ ->].
  assert (Hv : spec_norm (numeric_frame parse_float rows) r = Num (nClose r / b)%float).
  { unfold spec_norm. rewrite Ht. unfold closes in Hb. now rewrite Hb, Hz. }
  split; [exact Hv|].
  intros Hn.
  assert (Hna : isna (spec_norm (numeric_frame parse_float rows) r) = true)
    by now apply spec_norm_nan.
  split; [exact Hna|now apply isna_not_zero].
Qed.

(** C2.  For a ticker of the loaded table with no non-missing close, or
    whose first non-missing close is zero: every normalized value of the
    ticker is [pd.NA], so no quotient by zero is ever formed, [plot_data]
    returns a path, and the saved chart has no line for the ticker. *)
Theorem normalize_undefined_base (w : World) (latest : Path)
    (rows : list CsvRow) (t : string) :
  last_file (sorted_files (glob_csv "data" w)) = Some (latest, rows) ->
  (first_valid (closes t (numeric_frame parse_float rows)) = None \/
   exists b, first_valid (closes t (numeric_frame parse_float rows)) = Some b /\
             (b =? 0)%float = true) ->
  (forall i r v,
      nth_error (normalized_frame parse_float rows) i = Some (r, v) ->
      nTicker r = t -> v = NA) /\
  exists chart w',
    plot_data parse_float w = (Ok (plot_out w), w') /\
    In (plot_out w, chart) (png_files w') /\
    chart = draw latest (normalized_frame parse_float rows) /\
    ~ In t (map fst (lines chart)).
Proof.
  intros Hlast Hbase.
  assert (Hrows : forall i r v,
             nth_error (normalized_frame parse_float rows) i = Some (r, v) ->
             nTicker r = t -> v = NA).
  { intros i r v Hi Ht. apply normalized_frame_nth in Hi. destruct Hi as [_ ->].
    unfold spec_norm. rewrite Ht. unfold closes in Hbase.
    destruct Hbase as [-> | (b & -> & ->)]; reflexivity. }
  split; [exact Hrows|].
  eexists. eexists. split; [apply (plot_data_loaded parse_float w latest rows Hlast)|].
  split; [apply savefig_In|]. split; [reflexivity|].
  simpl. intros Hin. apply plot_lines_In in Hin.
  destruct Hin as ([r v] & Hrv & Ht & Hna). simpl in Ht, Hna.
  apply In_nth_error in Hrv. destruct Hrv as [i Hi].
  rewrite (Hrows i r v Hi Ht) in Hna. discriminate Hna.
Qed.

(** C10, as amended.  For a ticker whose first non-missing close [b] is
    strictly negative and finite: every row of the ticker has the
    normalized value close / [b], and the value at the base position is
    exactly 1.0. *)
Theorem normalize_negative_finite_base (rows : list CsvRow) (t : string) (b : float) :
  first_valid (closes t (numeric_frame parse_float rows)) = Some b ->
  (b <? 0)%float = true ->
  is_infinity b = false ->
  (forall i r v,
      nth_error (normalized_frame parse_float rows) i = Some (r, v) ->
      nTicker r = t -> v = Num (nClose r / b)%float) /\
  exists i r,
    base_position t (numeric_frame parse_float rows) = Some i /\
    nth_error (normalized_frame parse_float rows) i = Some (r, Num 1) /\
    nTicker r = t /\ nClose r = b.
Proof.
  intros Hb Hneg Hfin.
  assert (Hz : (b =? 0)%float = false) by now apply Float64.ltb_zero_ne_zero.
  assert (Hn : is_nan b = false) by now apply Float64.ltb_zero_not_nan.
  assert (Hrow : forall r, nTicker r = t ->
             spec_norm (numeric_frame parse_float rows) r = Num (nClose r / b)%float).
  { intros r Ht. unfold spec_norm. rewrite Ht. unfold closes in Hb. now rewrite Hb, Hz. }
  split.
  - intros i r v Hi Ht. apply normalized_frame_nth in Hi. destruct Hi as [_ ->].
    now apply Hrow.
  - destruct (first_valid_base_position _ _ _ Hb) as [i Hi].
    destruct (base_position_first_valid _ _ _ Hi) as (r & Hr & Ht & Hfv).
    unfold closes in Hb. rewrite Hb in Hfv. injection Hfv as Hrb.
    exists i, r. split; [exact Hi|]. split; [|auto].
    rewrite normalized_frame_spec, nth_error_map, Hr. simpl.
    rewrite (Hrow r Ht), <- Hrb, Float64.div_self; auto.
Qed.
End NormalizationClaims.

Lemma normalize_present_base_witness :
  first_valid (closes "A" (numeric_frame demo_parse demo_rows)) = Some 10%float /\
  (10 =? 0)%float = false /\
  StronglySorted (fun x y => nDatetime x <= nDatetime y)
                 (group "A" (numeric_frame demo_parse demo_rows)) /\
  map fst (normalized_frame demo_parse demo_rows) = numeric_frame demo_parse demo_rows /\
  forall i r v,
    nth_error (normalized_frame demo_parse demo_rows) i = Some (r, v) ->
    nTicker r = "A" ->
    v = Num (nClose r / 10)%float /\
    (is_nan (nClose r) = true -> isna v = true /\ v <> Num 0).
Proof.
  split; [reflexivity|]. split; [reflexivity|].
  apply (normalize_present_base demo_parse demo_rows "A" 10%float); reflexivity.
Defined.

Lemma normalize_undefined_base_witness :
  last_file (sorted_files (glob_csv "data" demo_world))
    = Some (mkPath "data" "20240101-000000.csv", demo_rows) /\
  (forall i r v,
      nth_error (normalized_frame demo_parse demo_rows) i = Some (r, v) ->
      nTicker r = "E" -> v = NA) /\
  exists chart w',
    plot_data demo_parse demo_world = (Ok (plot_out demo_world), w') /\
    In (plot_out demo_world, chart) (png_files w') /\
    chart = draw (mkPath "data" "20240101-000000.csv")
                 (normalized_frame demo_parse demo_rows) /\
    ~ In "E" (map fst (lines chart)).
Proof.
  split; [reflexivity|].
  apply (normalize_undefined_base demo_parse demo_world
           (mkPath "data" "20240101-000000.csv") demo_rows "E").
  - reflexivity.
  - right. exists 0%float. split; reflexivity.
Defined.

Lemma normalize_negative_finite_base_witness :
  first_valid (closes "D" (numeric_frame demo_parse demo_rows)) = Some (-5)%float /\
  (-5 <? 0)%float = true /\
  is_infinity (-5)%float = false /\
  (forall i r v,
      nth_error (normalized_frame demo_parse demo_rows) i = Some (r, v) ->
      nTicker r = "D" -> v = Num (nClose r / -5)%float) /\
  exists i r,
    base_position "D" (numeric_frame demo_parse demo_rows) = Some i /\
    nth_error (normalized_frame demo_parse demo_rows) i = Some (r, Num 1) /\
    nTicker r = "D" /\ nClose r = (-5)%float.
Proof.
  split; [reflexivity|]. split; [reflexivity|]. split; [reflexivity|].
  apply (normalize_negative_finite_base demo_parse demo_rows "D" (-5)%float);
    reflexivity.
Defined.

(** C10, as stated, fails when the first close is minus infinity: the base
    is strictly negative, rebasing goes ahead, and the value at the base
    position is NaN, not 1.0. *)
Lemma normalize_negative_base_counterexample :
  first_valid (closes "D" (numeric_frame demo_parse inf_rows)) = Some neg_infinity /\
  (neg_infinity <? 0)%float = true /\
  base_position "D" (numeric_frame demo_parse inf_rows) = Some 0%nat /\
  nth_error (normalized_frame demo_parse inf_rows) 0
    = Some (mkNumRow 1 "D" neg_infinity, Num nan) /\
  Num nan <> Num 1.
Proof.
  repeat split; try reflexivity.
  intros H.
  assert (Hn : isna (Num nan) = isna (Num 1)) by (now rewrite H).
  vm_compute in Hn. discriminate Hn.
Qed.

(** * The retriever *)

Section RetrieverClaims.
Variable yf_download : string -> DateTime -> list Bar.
Variable repr : float -> string.


Lemma empty_true_iff {A : Type} (l : list A) : empty l = true <-> l = [].
Proof. destruct l; simpl; split; congruence. Qed.

Lemma concat_fetch (end_ : DateTime) (tickers : list string) :
  List.concat (fetch yf_download end_ tickers)
  = flat_map (fun t => map (tag t) (yf_download t end_)) tickers.
Proof.
  induction tickers as [|t rest IH]; simpl; [reflexivity|].
  destruct (yf_download t end_) as [|b df] eqn:E; simpl.
  - exact IH.
  - now rewrite IH.
Qed.

Lemma fetch_empty_iff (end_ : DateTime) (tickers : list string) :
  empty (fetch yf_download end_ tickers) = true <->
  Forall (fun t => empty (yf_download t end_) = true) tickers.
Proof.
  induction tickers as [|t rest IH]; simpl.
  - split; [constructor|reflexivity].
  - destruct (empty (yf_download t end_)) eqn:E.
    + rewrite IH. split.
      * intros H. now constructor.
      * intros H. now inversion H.
    + simpl. split; [discriminate|]. intros H. inversion H. congruence.
Qed.

Lemma get_data_raise (tickers : list string) (w : World) :
  empty (fetch yf_download (utcnow w) tickers) = true ->
  get_data yf_download repr tickers w
  = (Raise (RuntimeError "No data downloaded. Check tickers or network."), w).
Proof. intros H. unfold get_data. now rewrite H. Qed.

Lemma get_data_ok (tickers : list string) (w : World) :
  empty (fetch yf_download (utcnow w) tickers) = false ->
  get_data yf_download repr tickers w
  = (Ok (data_out w),
     to_csv repr (combined_frame (fetch yf_download (utcnow w) tickers)) (data_out w)
            (snd (ensure_dir "data" w))).
Proof.
  intros H. unfold get_data. rewrite H.
  destruct (ensure_dir "data" w) as [data_dir w1] eqn:E1.
  assert (Hd : data_dir = "data") by (now rewrite <- (ensure_dir_fst "data" w), E1).
  assert (Hw1 : w1 = snd (ensure_dir "data" w)) by (now rewrite E1).
  subst data_dir. unfold data_out, timestamp_str.
  rewrite Hw1, ensure_dir_utcnow. reflexivity.
Qed.

(** Every row of the combined frame carries the ticker it was fetched for,
    and that ticker returned rows. *)
Lemma combined_frame_In (end_ : DateTime) (tickers : list string) (r : PriceRow) :
  In r (combined_frame (fetch yf_download end_ tickers)) ->
  In (Ticker r) tickers /\ empty (yf_download (Ticker r) end_) = false.
Proof.
  unfold combined_frame. rewrite sort_by_In, concat_fetch, in_flat_map.
  intros (t & Ht & Hr). apply in_map_iff in Hr. destruct Hr as (b & <- & Hb).
  simpl. split; [assumption|]. destruct (yf_download t end_); [contradiction|reflexivity].
Qed.

(** The combined frame does not depend on the order of the tickers. *)
Lemma combined_frame_perm (end_ : DateTime) (tickers tickers' : list string) :
  Permutation tickers tickers' ->
  combined_frame (fetch yf_download end_ tickers)
  = combined_frame (fetch yf_download end_ tickers').
Proof.
  unfold combined_frame. rewrite !concat_fetch.
  induction 1 as [|x l l' Hp IH|x y l|l l' l'' Hp1 IH1 Hp2 IH2]; simpl.
  - reflexivity.
  - rewrite !sort_by_app. now rewrite IH.
  - destruct (string_dec x y) as [->|Hne]; [reflexivity|].
    apply sort_by_swap_blocks.
    + apply le_Datetime_Ticker_total.
    + apply le_Datetime_Ticker_trans.
    + intros a b Ha Hb. apply le_Datetime_Ticker_untied.
      apply in_map_iff in Ha, Hb.
      destruct Ha as (ba & <- & _), Hb as (bb & <- & _). simpl. congruence.
  - congruence.
Qed.

Lemma fetch_empty_perm (end_ : DateTime) (tickers tickers' : list string) :
  Permutation tickers tickers' ->
  empty (fetch yf_download end_ tickers) = empty (fetch yf_download end_ tickers').
Proof.
  intros Hp.
  destruct (empty (fetch yf_download end_ tickers)) eqn:E1,
           (empty (fetch yf_download end_ tickers')) eqn:E2; try reflexivity.
  - apply fetch_empty_iff in E1.
    apply (Permutation_Forall Hp), fetch_empty_iff in E1. congruence.
  - apply fetch_empty_iff in E2.
    apply (Permutation_Forall (Permutation_sym Hp)), fetch_empty_iff in E2. congruence.
Qed.

Lemma fetch_not_empty (end_ : DateTime) (tickers : list string) (u : string) :
  In u tickers -> empty (yf_download u end_) = false ->
  empty (fetch yf_download end_ tickers) = false.
Proof.
  intros Hu He. destruct (empty (fetch yf_download end_ tickers)) eqn:E; [|reflexivity].
  apply fetch_empty_iff in E. rewrite Forall_forall in E. specialize (E u Hu). congruence.
Qed.

Lemma to_csv_In (combined : list PriceRow) (out : Path) (w : World) :
  In (out, map (csv_line repr) combined) (csv_files (to_csv repr combined out w)).
Proof. simpl. now left. Qed.

(** C3.  [get_data] raises exactly when every requested ticker returns an
    empty frame; it then raises RuntimeError and leaves the world as it
    found it: no file is written and no directory created. *)
Theorem get_data_raises_iff_no_data (tickers : list string) (w : World) :
  (raised (fst (get_data yf_download repr tickers w)) = true <->
   Forall (fun t => empty (yf_download t (utcnow w)) = true) tickers) /\
  (raised (fst (get_data yf_download repr tickers w)) = true ->
   exists msg,
     get_data yf_download repr tickers w = (Raise (RuntimeError msg), w)).
Proof.
  destruct (empty (fetch yf_download (utcnow w) tickers)) eqn:E.
  - rewrite (get_data_raise tickers w E). simpl. split.
    + split; [intros _; now apply fetch_empty_iff|reflexivity].
    + intros _. eexists. reflexivity.
  - rewrite (get_data_ok tickers w E). simpl. split.
    + split; [discriminate|]. intros H. apply fetch_empty_iff in H. congruence.
    + discriminate.
Qed.

(** C4.  When at least one ticker yields data, the table [get_data] writes
    holds the rows of the surviving frames ordered by Datetime first and by
    Ticker second, and every permutation of the ticker list gives the same
    rows in the same order, hence the same result and the same file. *)
Theorem combined_order_independent (tickers tickers' : list string) (w : World) (u : string) :
  Permutation tickers tickers' ->
  In u tickers -> empty (yf_download u (utcnow w)) = false ->
  let combined := combined_frame (fetch yf_download (utcnow w) tickers) in
  StronglySorted
    (fun a b => Datetime a < Datetime b \/
                (Datetime a = Datetime b /\ String.leb (Ticker a) (Ticker b) = true))
    combined /\
  Permutation combined (List.concat (fetch yf_download (utcnow w) tickers)) /\
  combined_frame (fetch yf_download (utcnow w) tickers') = combined /\
  get_data yf_download repr tickers' w = get_data yf_download repr tickers w /\
  exists w',
    get_data yf_download repr tickers w = (Ok (data_out w), w') /\
    In (data_out w, map (csv_line repr) combined) (csv_files w').
Proof.
  intros Hp Hu He combined.
  assert (Hne : empty (fetch yf_download (utcnow w) tickers) = false)
    by (eapply fetch_not_empty; eassumption).
  assert (Hne' : empty (fetch yf_download (utcnow w) tickers') = false)
    by (now rewrite <- (fetch_empty_perm _ _ _ Hp)).
  assert (Hc : combined_frame (fetch yf_download (utcnow w) tickers') = combined)
    by (symmetry; now apply combined_frame_perm).
  split; [|split; [|split; [|split]]].
  - unfold combined, combined_frame.
    apply (StronglySorted_impl (fun a b => le_Datetime_Ticker a b = true)).
    + intros a b Hab. now apply le_Datetime_Ticker_iff.
    + apply sort_by_sorted.
      * apply le_Datetime_Ticker_total.
      * apply le_Datetime_Ticker_trans.
  - apply sort_by_perm.
  - exact Hc.
  - rewrite (get_data_ok tickers' w Hne'), (get_data_ok tickers w Hne), Hc.
    reflexivity.
  - eexists. split; [apply (get_data_ok tickers w Hne)|]. apply to_csv_In.
Qed.

(** C7.  A ticker whose fetch is empty, next to a ticker that returns rows:
    [get_data] returns the path of the table it wrote, the table is not
    empty, and none of its rows belongs to the empty ticker. *)
Theorem get_data_skips_empty_ticker (tickers : list string) (w : World) (t u : string) :
  In t tickers -> empty (yf_download t (utcnow w)) = true ->
  In u tickers -> empty (yf_download u (utcnow w)) = false ->
  raised (fst (get_data yf_download repr tickers w)) = false /\
  exists rows w',
    get_data yf_download repr tickers w = (Ok (data_out w), w') /\
    In (data_out w, rows) (csv_files w') /\
    rows = map (csv_line repr) (combined_frame (fetch yf_download (utcnow w) tickers)) /\
    rows <> [] /\
    forall r, In r rows -> csvTicker r <> t.
Proof.
  intros Ht Het Hu Heu.
  assert (Hne : empty (fetch yf_download (utcnow w) tickers) = false)
    by (eapply fetch_not_empty; eassumption).
  split; [now rewrite (get_data_ok tickers w Hne)|].
  eexists. eexists. split; [apply (get_data_ok tickers w Hne)|].
  split; [apply to_csv_In|]. split; [reflexivity|]. split.
  - intros Hnil. apply map_eq_nil in Hnil.
    assert (Hperm : Permutation
                      (combined_frame (fetch yf_download (utcnow w) tickers))
                      (List.concat (fetch yf_download (utcnow w) tickers)))
      by apply sort_by_perm.
    rewrite Hnil in Hperm. apply Permutation_nil in Hperm.
    rewrite concat_fetch in Hperm.
    destruct (yf_download u (utcnow w)) as [|b df] eqn:E; [discriminate|].
    assert (Hin : In (tag u b)
                     (flat_map (fun t0 => map (tag t0) (yf_download t0 (utcnow w))) tickers)).
    { apply in_flat_map. exists u. split; [assumption|]. rewrite E. now left. }
    rewrite Hperm in Hin. contradiction.
  - intros r Hr Hrt. apply in_map_iff in Hr. destruct Hr as (p & <- & Hp).
    simpl in Hrt. apply combined_frame_In in Hp. destruct Hp as [_ Hp].
    rewrite Hrt in Hp. congruence.
Qed.
End RetrieverClaims.

Lemma combined_order_independent_witness :
  Permutation ["B"; "Z"; "A"] ["A"; "B"; "Z"] /\
  In "A" ["B"; "Z"; "A"] /\
  empty (demo_download "A" (utcnow fresh_world)) = false /\
  let combined := combined_frame (fetch demo_download (utcnow fresh_world) ["B"; "Z"; "A"]) in
  StronglySorted
    (fun a b => Datetime a < Datetime b \/
                (Datetime a = Datetime b /\ String.leb (Ticker a) (Ticker b) = true))
    combined /\
  Permutation combined (List.concat (fetch demo_download (utcnow fresh_world) ["B"; "Z"; "A"])) /\
  combined_frame (fetch demo_download (utcnow fresh_world) ["A"; "B"; "Z"]) = combined /\
  get_data demo_download demo_repr ["A"; "B"; "Z"] fresh_world
    = get_data demo_download demo_repr ["B"; "Z"; "A"] fresh_world /\
  exists w',
    get_data demo_download demo_repr ["B"; "Z"; "A"] fresh_world
      = (Ok (data_out fresh_world), w') /\
    In (data_out fresh_world, map (csv_line demo_repr) combined) (csv_files w').
Proof.
  assert (Hp : Permutation ["B"; "Z"; "A"] ["A"; "B"; "Z"]).
  { apply Permutation_sym. apply (Permutation_cons_app ["B"; "Z"] []). apply Permutation_refl. }
  split; [exact Hp|].
  assert (Hin : In "A" ["B"; "Z"; "A"]) by (simpl; tauto).
  split; [exact Hin|]. split; [reflexivity|].
  exact (combined_order_independent demo_download demo_repr
           ["B"; "Z"; "A"] ["A"; "B"; "Z"] fresh_world "A" Hp Hin eq_refl).
Defined.

Lemma get_data_skips_empty_ticker_witness :
  In "Z" ["B"; "Z"; "A"] /\
  empty (demo_download "Z" (utcnow fresh_world)) = true /\
  In "A" ["B"; "Z"; "A"] /\
  empty (demo_download "A" (utcnow fresh_world)) = false /\
  raised (fst (get_data demo_download demo_repr ["B"; "Z"; "A"] fresh_world)) = false /\
  exists rows w',
    get_data demo_download demo_repr ["B"; "Z"; "A"] fresh_world
      = (Ok (data_out fresh_world), w') /\
    In (data_out fresh_world, rows) (csv_files w') /\
    rows = map (csv_line demo_repr)
               (combined_frame (fetch demo_download (utcnow fresh_world) ["B"; "Z"; "A"])) /\
    rows <> [] /\
    forall r, In r rows -> csvTicker r <> "Z".
Proof.
  assert (Hz : In "Z" ["B"; "Z"; "A"]) by (simpl; tauto).
  assert (Ha : In "A" ["B"; "Z"; "A"]) by (simpl; tauto).
  split; [exact Hz|]. split; [reflexivity|]. split; [exact Ha|]. split; [reflexivity|].
  exact (get_data_skips_empty_ticker demo_download demo_repr
           ["B"; "Z"; "A"] fresh_world "Z" "A" Hz eq_refl Ha eq_refl).
Defined.

(** * File names and the latest table *)

Lemma digit_compare (a b : Z) :
  Ascii.compare (digit a) (digit b) = (a mod 10 ?= b mod 10)%Z.
Proof.
  unfold Ascii.compare, digit.
  pose proof (Z.mod_pos_bound a 10 eq_refl) as Ha.
  pose proof (Z.mod_pos_bound b 10 eq_refl) as Hb.
  rewrite !N_ascii_embedding by lia.
  rewrite Z2N.inj_compare by lia.
  apply Z.add_compare_mono_l.
Qed.

Ltac settle_compare :=
  repeat match goal with
         | |- context [Z.compare (?a mod 10) (?b mod 10)] =>
             destruct (Z.compare_spec (a mod 10) (b mod 10))
         end;
  symmetry;
  first [apply Z.compare_eq_iff | apply Z.compare_lt_iff | apply Z.compare_gt_iff];
  Z.div_mod_to_equations; lia.

(** One field of the chronological comparison: equal fields pass the
    comparison on, unequal fields settle it. *)
Ltac cmp_field a b :=
  let E := fresh "E" in
  destruct (Z.compare_spec a b) as [E|E|E];
  [ rewrite E, Z.ltb_irrefl, Z.eqb_refl; simpl
  | apply Z.ltb_lt in E; rewrite E; reflexivity
  | let F := fresh in
    let G := fresh in
    assert (F : (a <? b)%Z = false) by (apply Z.ltb_ge; lia);
    assert (G : (a =? b)%Z = false) by (apply Z.eqb_neq; lia);
    rewrite F, G; reflexivity ].

Lemma pad2_compare (x y : Z) :
  0 <= x < 100 -> 0 <= y < 100 ->
  String.compare (pad2 x) (pad2 y) = (x ?= y)%Z.
Proof.
  intros Hx Hy. unfold pad2. simpl. rewrite !digit_compare.
  settle_compare.
Qed.

Lemma pad4_compare (x y : Z) :
  0 <= x < 10000 -> 0 <= y < 10000 ->
  String.compare (pad4 x) (pad4 y) = (x ?= y)%Z.
Proof.
  intros Hx Hy. unfold pad4, pad2. simpl. rewrite !digit_compare.
  settle_compare.
Qed.

Lemma append_assoc (a b c : string) : ((a ++ b) ++ c = a ++ (b ++ c))%string.
Proof. induction a as [|x a IH]; simpl; [reflexivity|now rewrite IH]. Qed.

Lemma compare_app (a1 a2 b1 b2 : string) :
  String.length a1 = String.length a2 ->
  String.compare (a1 ++ b1) (a2 ++ b2)
  = match String.compare a1 a2 with
    | Eq => String.compare b1 b2
    | c => c
    end.
Proof.
  revert a2. induction a1 as [|x a1 IH]; intros [|y a2]; simpl; try discriminate.
  - reflexivity.
  - intros [= Hl]. destruct (Ascii.compare x y); try reflexivity. now apply IH.
Qed.

Lemma valid_datetime_bounds (d : DateTime) :
  valid_datetime d = true ->
  0 <= year d < 10000 /\ 0 <= month d < 100 /\ 0 <= day d < 100 /\
  0 <= hour d < 100 /\ 0 <= minute d < 100 /\ 0 <= second d < 100.
Proof.
  unfold valid_datetime. rewrite !andb_true_iff, !Z.leb_le. lia.
Qed.

(** The file names of two readings compare as the readings do. *)
Lemma strftime_order (d1 d2 : DateTime) (suffix : string) :
  valid_datetime d1 = true -> valid_datetime d2 = true ->
  String.ltb (strftime d1 ++ suffix) (strftime d2 ++ suffix) = chron_ltb d1 d2.
Proof.
  intros H1 H2.
  apply valid_datetime_bounds in H1, H2.
  destruct H1 as (Y1 & M1 & D1 & h1 & m1 & s1), H2 as (Y2 & M2 & D2 & h2 & m2 & s2).
  unfold String.ltb, strftime. rewrite !append_assoc.
  rewrite !compare_app by reflexivity.
  rewrite pad4_compare, !pad2_compare by assumption.
  change (String.compare "-" "-") with Eq. cbv iota.
  rewrite StringOrder.compare_refl.
  unfold chron_ltb, chron_key, lex_ltb.
  cmp_field (year d1) (year d2). cmp_field (month d1) (month d2).
  cmp_field (day d1) (day d2). cmp_field (hour d1) (hour d2).
  cmp_field (minute d1) (minute d2). cmp_field (second d1) (second d2).
  reflexivity.
Qed.

Lemma glob_csv_In (dir : string) (w : World) (f : Path * list CsvRow) :
  In f (glob_csv dir w) ->
  In f (csv_files w) /\ parent (fst f) = dir /\ endswith (name (fst f)) ".csv" = true.
Proof.
  unfold glob_csv. rewrite filter_In, andb_true_iff, String.eqb_eq. tauto.
Qed.

Lemma last_file_sorted {B : Type} (files : list (Path * B)) (m : Path * B) :
  last_file (sorted_files files) = Some m ->
  In m files /\ forall f, In f files -> path_le (fst f) (fst m) = true.
Proof.
  unfold last_file, sorted_files. intros H.
  set (le := fun f g : Path * B => path_le (fst f) (fst g)) in *.
  assert (Hn : nth_error (rev (sort_by le files)) 0 = Some m).
  { destruct (rev (sort_by le files)); [discriminate|]. simpl. congruence. }
  split.
  - apply (sort_by_In le). apply in_rev.
    destruct (rev (sort_by le files)); [discriminate|]. injection Hn as <-. now left.
  - intros f Hf.
    apply (sorted_last_max le (sort_by le files) m).
    + apply sort_by_sorted.
      * intros a b. apply path_le_total.
      * intros a b c. apply path_le_trans.
    + apply path_le_refl.
    + exact Hn.
    + now apply sort_by_In.
Qed.

Lemma last_file_exists {B : Type} (files : list (Path * B)) :
  files <> [] -> exists m, last_file (sorted_files files) = Some m.
Proof.
  intros Hne. unfold last_file, sorted_files.
  destruct (rev (sort_by _ files)) as [|m l] eqn:E; [|now exists m].
  exfalso. apply Hne.
  assert (Hs : sort_by (fun f g : Path * B => path_le (fst f) (fst g)) files = []).
  { rewrite <- (rev_involutive (sort_by _ files)), E. reflexivity. }
  apply Permutation_nil. rewrite <- Hs. apply sort_by_perm.
Qed.

Lemma filter_nil_forall {A : Type} (p : A -> bool) (l : list A) :
  (forall x, In x l -> p x = false) -> filter p l = [].
Proof.
  induction l as [|x l IH]; intros H; simpl; [reflexivity|].
  rewrite (H x) by now left. apply IH. intros y Hy. apply H. now right.
Qed.

(** In a well-formed world a missing directory holds no file. *)
Lemma glob_csv_absent (dir : string) (w : World) :
  wf_world w -> ~ In dir (dirs w) -> glob_csv dir w = [].
Proof.
  intros [Hwf _] Habs. unfold glob_csv. apply filter_nil_forall.
  intros f Hf. destruct (String.eqb (parent (fst f)) dir) eqn:E; [|reflexivity].
  apply String.eqb_eq in E. exfalso. apply Habs. rewrite <- E. now apply Hwf.
Qed.

Section PlotterClaims.
Variable parse_float : string -> option float.

(** C5.  With at least one table file under [data/], [plot_data] loads the
    file whose name is lexicographically greatest among them and draws its
    chart from it; names made by [timestamp_str] compare as their capture
    times do, so no timestamp-named file is more recent than the one loaded. *)
Theorem plot_data_selects_latest (w : World) :
  glob_csv "data" w <> [] ->
  exists latest rows w',
    In (latest, rows) (glob_csv "data" w) /\
    plot_data parse_float w = (Ok (plot_out w), w') /\
    In (plot_out w, draw latest (normalized_frame parse_float rows)) (png_files w') /\
    (forall f, In f (glob_csv "data" w) ->
               String.leb (name (fst f)) (name latest) = true) /\
    (forall d1 d2, valid_datetime d1 = true -> valid_datetime d2 = true ->
                   String.ltb (strftime d1 ++ ".csv") (strftime d2 ++ ".csv")
                   = chron_ltb d1 d2) /\
    (forall d f d', valid_datetime d = true -> valid_datetime d' = true ->
                    name latest = (strftime d ++ ".csv")%string ->
                    In f (glob_csv "data" w) ->
                    name (fst f) = (strftime d' ++ ".csv")%string ->
                    chron_ltb d d' = false).
Proof.
  intros Hne. destruct (last_file_exists _ Hne) as [[latest rows] Hlast].
  destruct (last_file_sorted _ _ Hlast) as [Hin Hmax].
  assert (Hleb : forall f, In f (glob_csv "data" w) ->
                           String.leb (name (fst f)) (name latest) = true).
  { intros f Hf. specialize (Hmax f Hf). simpl in Hmax.
    apply path_le_iff in Hmax. destruct Hmax as [Hlt|[_ Hle]]; [|exact Hle].
    apply glob_csv_In in Hf, Hin. destruct Hf as (_ & Hpf & _), Hin as (_ & Hpl & _).
    simpl in Hpl. rewrite Hpf, Hpl, StringOrder.ltb_irrefl in Hlt. discriminate. }
  exists latest, rows. eexists.
  split; [exact Hin|].
  split; [apply (plot_data_loaded parse_float w latest rows Hlast)|].
  split; [apply savefig_In|].
  split; [exact Hleb|].
  split; [intros d1 d2; apply strftime_order|].
  intros d f d' Hd Hd' Hl Hf Hn.
  rewrite <- (strftime_order d d' ".csv" Hd Hd'), <- Hl, <- Hn.
  apply StringOrder.leb_ltb_false. now apply Hleb.
Qed.

(** C9.  When [data/] is absent or holds no CSV file, [plot_data] raises
    FileNotFoundError after [ensure_dir]: the directory exists in the world
    it leaves, so an absent [data/] has been created and the world changed,
    while no file was touched. *)
Theorem plot_data_creates_data_dir (w : World) :
  wf_world w ->
  ~ In "data" (dirs w) \/ glob_csv "data" w = [] ->
  exists msg w',
    plot_data parse_float w = (Raise (FileNotFoundError msg), w') /\
    In "data" (dirs w') /\
    csv_files w' = csv_files w /\ png_files w' = png_files w /\
    (~ In "data" (dirs w) -> dirs w' = "data" :: dirs w /\ w' <> w).
Proof.
  intros Hwf Hcase.
  assert (Hglob : glob_csv "data" w = []).
  { destruct Hcase as [Habs|H]; [now apply glob_csv_absent|exact H]. }
  eexists. eexists. split; [apply (plot_data_no_csv parse_float w Hglob)|].
  split; [apply ensure_dir_In|].
  split; [apply ensure_dir_csv|]. split; [apply ensure_dir_png|].
  intros Habs.
  assert (Hd : dirs (snd (ensure_dir "data" w)) = "data" :: dirs w).
  { rewrite ensure_dir_dirs. destruct (existsb _ _) eqn:E; [|reflexivity].
    apply existsb_eqb_In in E. contradiction. }
  split; [exact Hd|].
  intros Heq. rewrite Heq in Hd. apply Habs. rewrite Hd at 1. now left.
Qed.
End PlotterClaims.

(** C6.  With no table file under [data/], [plot_data] raises
    FileNotFoundError; when every ticker returns an empty frame [get_data]
    raises RuntimeError; the two are of different classes. *)
Theorem missing_artifacts_distinct
    (parse_float : string -> option float)
    (yf_download : string -> DateTime -> list Bar) (repr : float -> string)
    (w w2 : World) (tickers : list string) :
  glob_csv "data" w = [] ->
  Forall (fun t => empty (yf_download t (utcnow w2)) = true) tickers ->
  exists e1 e2,
    fst (plot_data parse_float w) = Raise e1 /\
    fst (get_data yf_download repr tickers w2) = Raise e2 /\
    kind_of e1 = KFileNotFoundError /\ kind_of e2 = KRuntimeError /\
    kind_of e1 <> kind_of e2.
Proof.
  intros Hglob Hall.
  apply fetch_empty_iff in Hall.
  rewrite (plot_data_no_csv parse_float w Hglob), (get_data_raise _ repr tickers w2 Hall).
  eexists. eexists. repeat split. discriminate.
Qed.

Lemma plot_data_selects_latest_witness :
  glob_csv "data" demo_world <> [] /\
  exists latest rows w',
    In (latest, rows) (glob_csv "data" demo_world) /\
    plot_data demo_parse demo_world = (Ok (plot_out demo_world), w') /\
    In (plot_out demo_world, draw latest (normalized_frame demo_parse rows))
       (png_files w') /\
    (forall f, In f (glob_csv "data" demo_world) ->
               String.leb (name (fst f)) (name latest) = true) /\
    (forall d1 d2, valid_datetime d1 = true -> valid_datetime d2 = true ->
                   String.ltb (strftime d1 ++ ".csv") (strftime d2 ++ ".csv")
                   = chron_ltb d1 d2) /\
    (forall d f d', valid_datetime d = true -> valid_datetime d' = true ->
                    name latest = (strftime d ++ ".csv")%string ->
                    In f (glob_csv "data" demo_world) ->
                    name (fst f) = (strftime d' ++ ".csv")%string ->
                    chron_ltb d d' = false).
Proof.
  assert (Hne : glob_csv "data" demo_world <> []) by discriminate.
  split; [exact Hne|].
  exact (plot_data_selects_latest demo_parse demo_world Hne).
Defined.

Lemma plot_data_creates_data_dir_witness :
  wf_world fresh_world /\
  (~ In "data" (dirs fresh_world) \/ glob_csv "data" fresh_world = []) /\
  exists msg w',
    plot_data demo_parse fresh_world = (Raise (FileNotFoundError msg), w') /\
    In "data" (dirs w') /\
    csv_files w' = csv_files fresh_world /\ png_files w' = png_files fresh_world /\
    (~ In "data" (dirs fresh_world) -> dirs w' = "data" :: dirs fresh_world /\ w' <> fresh_world).
Proof.
  assert (Hwf : wf_world fresh_world) by (split; intros f []).
  assert (Hcase : ~ In "data" (dirs fresh_world) \/ glob_csv "data" fresh_world = [])
    by (right; reflexivity).
  split; [exact Hwf|]. split; [exact Hcase|].
  exact (plot_data_creates_data_dir demo_parse fresh_world Hwf Hcase).
Defined.

Lemma missing_artifacts_distinct_witness :
  glob_csv "data" fresh_world = [] /\
  Forall (fun t => empty (demo_download t (utcnow demo_world)) = true) ["Q"; "Z"] /\
  exists e1 e2,
    fst (plot_data demo_parse fresh_world) = Raise e1 /\
    fst (get_data demo_download demo_repr ["Q"; "Z"] demo_world) = Raise e2 /\
    kind_of e1 = KFileNotFoundError /\ kind_of e2 = KRuntimeError /\
    kind_of e1 <> kind_of e2.
Proof.
  assert (Hall : Forall (fun t => empty (demo_download t (utcnow demo_world)) = true)
                        ["Q"; "Z"])
    by (repeat constructor).
  split; [reflexivity|]. split; [exact Hall|].
  exact (missing_artifacts_distinct demo_parse demo_download demo_repr
           fresh_world demo_world ["Q"; "Z"] eq_refl Hall).
Defined.

(** * What the two stages do to the filesystem *)

Lemma path_eqb_eq (p q : Path) : path_eqb p q = true <-> p = q.
Proof.
  unfold path_eqb. rewrite andb_true_iff, !String.eqb_eq.
  destruct p, q; simpl. split; [intros [-> ->]; reflexivity|intros [= -> ->]; auto].
Qed.

Lemma path_eqb_refl (p : Path) : path_eqb p p = true.
Proof. now apply path_eqb_eq. Qed.

Lemma path_eqb_neq (p q : Path) : path_eqb p q = false <-> p <> q.
Proof.
  split.
  - intros H E. apply path_eqb_eq in E. congruence.
  - intros H. destruct (path_eqb p q) eqn:E; [|reflexivity].
    apply path_eqb_eq in E. contradiction.
Qed.

Lemma write_file_In_other {B : Type} (p : Path) (body : B)
    (files : list (Path * B)) (f : Path * B) :
  In f files -> fst f <> p -> In f (write_file p body files).
Proof.
  intros Hf Hne. unfold write_file. right. apply filter_In. split; [assumption|].
  apply negb_true_iff. now apply path_eqb_neq.
Qed.

Lemma write_file_In_inv {B : Type} (p : Path) (body : B)
    (files : list (Path * B)) (f : Path * B) :
  In f (write_file p body files) -> f = (p, body) \/ (In f files /\ fst f <> p).
Proof.
  unfold write_file. intros [<-|Hf]; [now left|].
  apply filter_In in Hf. destruct Hf as [Hf Hne]. right. split; [assumption|].
  apply negb_true_iff in Hne. now apply path_eqb_neq.
Qed.

(** After a write exactly one file is stored under the path. *)
Lemma write_file_at {B : Type} (p : Path) (body : B) (files : list (Path * B)) :
  filter (fun f => path_eqb (fst f) p) (write_file p body files) = [(p, body)].
Proof.
  unfold write_file. simpl. rewrite path_eqb_refl. f_equal.
  apply filter_nil_forall. intros f Hf. apply filter_In in Hf.
  destruct Hf as [_ Hne]. now apply negb_true_iff in Hne.
Qed.

Lemma endswith_csv_strftime (d : DateTime) :
  endswith (strftime d ++ ".csv") ".csv" = true.
Proof. reflexivity. Qed.

Section FilesystemFacts.
Variable yf_download : string -> DateTime -> list Bar.
Variable repr : float -> string.
Variable parse_float : string -> option float.

Lemma get_data_inv (tickers : list string) (w : World) (out : Path) (w' : World) :
  get_data yf_download repr tickers w = (Ok out, w') ->
  empty (fetch yf_download (utcnow w) tickers) = false /\
  out = data_out w /\
  w' = to_csv repr (combined_frame (fetch yf_download (utcnow w) tickers)) (data_out w)
              (snd (ensure_dir "data" w)).
Proof.
  destruct (empty (fetch yf_download (utcnow w) tickers)) eqn:E.
  - rewrite (get_data_raise yf_download repr tickers w E). discriminate.
  - rewrite (get_data_ok yf_download repr tickers w E). intros [= <- <-]. auto.
Qed.

Lemma plot_data_none (w : World) :
  last_file (sorted_files (glob_csv "data" w)) = None ->
  plot_data parse_float w =
  (Raise (FileNotFoundError "No CSV files in data/. Run download first."),
   snd (ensure_dir "data" w)).
Proof.
  intros H. apply plot_data_no_csv.
  destruct (glob_csv "data" w) as [|f l] eqn:E; [reflexivity|].
  assert (Hne : f :: l <> []) by discriminate.
  destruct (last_file_exists _ Hne) as [m Hm]. congruence.
Qed.

(** The world [plot_data] leaves, whatever it returns. *)
Lemma plot_data_world (w : World) :
  let w' := snd (plot_data parse_float w) in
  csv_files w' = csv_files w /\
  (png_files w' = png_files w \/
   exists chart, png_files w' = write_file (plot_out w) chart (png_files w) /\
                 In "plots" (dirs w')) /\
  (forall d, In d (dirs w) -> In d (dirs w')) /\
  (forall d, In d (dirs w') -> d = "data" \/ d = "plots" \/ In d (dirs w)).
Proof.
  assert (Hgrow : forall p v d, In d (dirs v) -> In d (dirs (snd (ensure_dir p v)))).
  { intros p v d Hd. rewrite ensure_dir_dirs. destruct (existsb _ _); [assumption|now right]. }
  assert (Hback : forall p v d, In d (dirs (snd (ensure_dir p v))) -> d = p \/ In d (dirs v)).
  { intros p v d. rewrite ensure_dir_dirs. destruct (existsb _ _); [now right|].
    intros [<-|Hd]; auto. }
  destruct (last_file (sorted_files (glob_csv "data" w))) as [[latest rows]|] eqn:E.
  - rewrite (plot_data_loaded parse_float w latest rows E).
    cbn [snd savefig csv_files png_files dirs].
    rewrite !ensure_dir_csv, !ensure_dir_png.
    split; [reflexivity|].
    split; [right; eexists; split; [reflexivity|apply ensure_dir_In]|]. split.
    + intros d Hd. now apply Hgrow, Hgrow.
    + intros d Hd. apply Hback in Hd. destruct Hd as [->|Hd]; [auto|].
      apply Hback in Hd. destruct Hd as [->|Hd]; auto.
  - rewrite (plot_data_none w E). cbn [snd].
    rewrite ensure_dir_csv, ensure_dir_png.
    split; [reflexivity|]. split; [now left|]. split.
    + intros d Hd. now apply Hgrow.
    + intros d Hd. apply Hback in Hd. destruct Hd as [->|Hd]; auto.
Qed.

(** Creating a directory that exists changes nothing, so doing it twice is
    doing it once; no directory is ever removed. *)
Theorem ensure_dir_idempotent (path : string) (w : World) :
  ensure_dir path (snd (ensure_dir path w)) = ensure_dir path w /\
  (In path (dirs w) -> snd (ensure_dir path w) = w) /\
  (forall d, In d (dirs w) -> In d (dirs (snd (ensure_dir path w)))).
Proof.
  assert (Hex : forall v, In path (dirs v) -> ensure_dir path v = (path, v)).
  { intros v H. unfold ensure_dir. apply existsb_eqb_In in H. now rewrite H. }
  split; [|split].
  - rewrite (Hex _ (ensure_dir_In path w)). reflexivity.
  - intros H. now rewrite (Hex w H).
  - intros d Hd. rewrite ensure_dir_dirs. destruct (existsb _ _); [assumption|now right].
Qed.

(** A successful [get_data] returns [data/<timestamp>.csv], leaves every
    chart and every table stored under another path in place, and stores
    exactly one table under the path it returns: a table written earlier in
    the same second is replaced. *)
Theorem get_data_keeps_other_files (tickers : list string) (w : World)
    (out : Path) (w' : World) :
  get_data yf_download repr tickers w = (Ok out, w') ->
  out = mkPath "data" (strftime (utcnow w) ++ ".csv") /\
  png_files w' = png_files w /\
  (forall f, In f (csv_files w) -> fst f <> out -> In f (csv_files w')) /\
  (forall f, In f (csv_files w') -> fst f <> out -> In f (csv_files w)) /\
  filter (fun f => path_eqb (fst f) out) (csv_files w')
  = [(out, map (csv_line repr)
               (combined_frame (fetch yf_download (utcnow w) tickers)))] /\
  In "data" (dirs w').
Proof.
  intros H. apply get_data_inv in H. destruct H as (_ & -> & ->).
  split; [reflexivity|]. cbn [to_csv csv_files png_files dirs].
  rewrite ensure_dir_csv, ensure_dir_png.
  split; [reflexivity|]. split; [|split; [|split]].
  - intros f Hf Hne. now apply write_file_In_other.
  - intros f Hf Hne. apply write_file_In_inv in Hf.
    destruct Hf as [->|[Hf _]]; [contradiction|assumption].
  - apply write_file_at.
  - apply ensure_dir_In.
Qed.

(** [plot_data] only reads the tables: whether it returns or raises, the CSV
    files are what they were, every chart stored under another path than the
    one it writes is kept, and no directory disappears. *)
Theorem plot_data_keeps_tables (w : World) :
  csv_files (snd (plot_data parse_float w)) = csv_files w /\
  (forall f, In f (png_files w) -> fst f <> plot_out w ->
             In f (png_files (snd (plot_data parse_float w)))) /\
  (forall d, In d (dirs w) -> In d (dirs (snd (plot_data parse_float w)))).
Proof.
  destruct (plot_data_world w) as (Hcsv & Hpng & Hdirs & _).
  split; [exact Hcsv|]. split; [|exact Hdirs].
  intros f Hf Hne. destruct Hpng as [->|(chart & -> & _)]; [assumption|].
  now apply write_file_In_other.
Qed.

(** Both stages keep the filesystem well formed: every file they leave lies
    in a directory that exists. *)
Theorem stages_keep_world_well_formed (tickers : list string) (w : World) :
  wf_world w ->
  wf_world (snd (get_data yf_download repr tickers w)) /\
  wf_world (snd (plot_data parse_float w)).
Proof.
  intros [Hc Hp]. split.
  - destruct (empty (fetch yf_download (utcnow w) tickers)) eqn:E.
    + rewrite (get_data_raise yf_download repr tickers w E). now split.
    + rewrite (get_data_ok yf_download repr tickers w E).
      cbn [snd]. unfold to_csv.
      assert (Hgrow : forall d, In d (dirs w) -> In d (dirs (snd (ensure_dir "data" w)))).
      { intros d Hd. rewrite ensure_dir_dirs. destruct (existsb _ _); [assumption|now right]. }
      split; cbn [csv_files png_files dirs].
      * intros f Hf. rewrite ensure_dir_csv in Hf. apply write_file_In_inv in Hf.
        destruct Hf as [->|[Hf _]]; [apply ensure_dir_In|now apply Hgrow, Hc].
      * intros f Hf. rewrite ensure_dir_png in Hf. now apply Hgrow, Hp.
  - destruct (plot_data_world w) as (Hcsv & Hpng & Hdirs & _).
    split.
    + intros f Hf. rewrite Hcsv in Hf. now apply Hdirs, Hc.
    + intros f Hf. destruct Hpng as [E|(chart & E & Hplots)]; rewrite E in Hf.
      * now apply Hdirs, Hp.
      * apply write_file_In_inv in Hf.
        destruct Hf as [->|[Hf _]]; [exact Hplots|now apply Hdirs, Hp].
Qed.

(** The table [get_data] has just written is found by [plot_data]: after a
    successful download the plot step never fails for want of a CSV file. *)
Theorem plot_after_get_data_finds_table (tickers : list string) (w : World)
    (out : Path) (w1 : World) :
  get_data yf_download repr tickers w = (Ok out, w1) ->
  glob_csv "data" w1 <> [] /\
  fst (plot_data parse_float w1) = Ok (plot_out w1).
Proof.
  intros H. apply get_data_inv in H. destruct H as (_ & -> & ->).
  assert (Hin : In (data_out w,
                    map (csv_line repr)
                        (combined_frame (fetch yf_download (utcnow w) tickers)))
                   (glob_csv "data"
                      (to_csv repr (combined_frame (fetch yf_download (utcnow w) tickers))
                              (data_out w) (snd (ensure_dir "data" w))))).
  { unfold glob_csv. apply filter_In. split; [apply to_csv_In|]. reflexivity. }
  assert (Hne : glob_csv "data"
                  (to_csv repr (combined_frame (fetch yf_download (utcnow w) tickers))
                          (data_out w) (snd (ensure_dir "data" w))) <> []).
  { intros E. rewrite E in Hin. contradiction. }
  split; [exact Hne|].
  destruct (last_file_exists _ Hne) as [[latest rows] Hlast].
  now rewrite (plot_data_loaded parse_float _ latest rows Hlast).
Qed.
End FilesystemFacts.

Lemma get_data_keeps_other_files_witness :
  let w' := snd (get_data demo_download demo_repr ["A"] demo_world) in
  get_data demo_download demo_repr ["A"] demo_world = (Ok (data_out demo_world), w') /\
  data_out demo_world = mkPath "data" (strftime (utcnow demo_world) ++ ".csv") /\
  png_files w' = png_files demo_world /\
  (forall f, In f (csv_files demo_world) -> fst f <> data_out demo_world ->
             In f (csv_files w')) /\
  (forall f, In f (csv_files w') -> fst f <> data_out demo_world ->
             In f (csv_files demo_world)) /\
  filter (fun f => path_eqb (fst f) (data_out demo_world)) (csv_files w')
  = [(data_out demo_world,
      map (csv_line demo_repr)
          (combined_frame (fetch demo_download (utcnow demo_world) ["A"])))] /\
  In "data" (dirs w').
Proof.
  intros w'. split; [reflexivity|].
  apply (get_data_keeps_other_files demo_download demo_repr ["A"] demo_world
           (data_out demo_world) w').
  reflexivity.
Defined.

Lemma stages_keep_world_well_formed_witness :
  wf_world fresh_world /\
  wf_world (snd (get_data demo_download demo_repr ["A"; "B"] fresh_world)) /\
  wf_world (snd (plot_data demo_parse fresh_world)).
Proof.
  assert (Hwf : wf_world fresh_world) by (split; intros f []).
  split; [exact Hwf|].
  exact (stages_keep_world_well_formed demo_download demo_repr demo_parse
           ["A"; "B"] fresh_world Hwf).
Defined.

Lemma plot_after_get_data_finds_table_witness :
  let w1 := snd (get_data demo_download demo_repr ["A"; "B"] fresh_world) in
  get_data demo_download demo_repr ["A"; "B"] fresh_world
    = (Ok (data_out fresh_world), w1) /\
  glob_csv "data" w1 <> [] /\
  fst (plot_data demo_parse w1) = Ok (plot_out w1).
Proof.
  intros w1. split; [reflexivity|].
  apply (plot_after_get_data_finds_table demo_download demo_repr demo_parse
           ["A"; "B"] fresh_world (data_out fresh_world) w1).
  reflexivity.
Defined.

(** * Names from the clock *)

Lemma append_nil_r (s : string) : (s ++ "")%string = s.
Proof. induction s as [|c s IH]; simpl; [reflexivity|now rewrite IH]. Qed.

Lemma lex_ltb_antisym_eq (a b : list Z) :
  List.length a = List.length b ->
  lex_ltb a b = false -> lex_ltb b a = false -> a = b.
Proof.
  revert b. induction a as [|x a IH]; intros [|y b]; simpl; try discriminate.
  - reflexivity.
  - intros [= Hl] H1 H2.
    apply orb_false_iff in H1, H2. destruct H1 as [L1 R1], H2 as [L2 R2].
    apply Z.ltb_ge in L1, L2. assert (x = y) by lia. subst y.
    rewrite Z.eqb_refl in R1, R2. simpl in R1, R2.
    f_equal. now apply IH.
Qed.

Lemma digit_not_dash (n : Z) : Ascii.eqb (digit n) "-"%char = false.
Proof.
  unfold digit. pose proof (Z.mod_pos_bound n 10 eq_refl) as H.
  generalize dependent (n mod 10). intros r Hr.
  assert (Hc : r = 0 \/ r = 1 \/ r = 2 \/ r = 3 \/ r = 4 \/
               r = 5 \/ r = 6 \/ r = 7 \/ r = 8 \/ r = 9) by lia.
  repeat (destruct Hc as [->|Hc]; [reflexivity|]). subst r. reflexivity.
Qed.

(** Two readings that differ get different file names, whatever the
    extension: names collide only within one second. *)
Theorem timestamp_names_injective (d1 d2 : DateTime) (suffix : string) :
  valid_datetime d1 = true -> valid_datetime d2 = true ->
  (strftime d1 ++ suffix)%string = (strftime d2 ++ suffix)%string ->
  d1 = d2.
Proof.
  intros H1 H2 E.
  pose proof (strftime_order d1 d2 suffix H1 H2) as L12.
  pose proof (strftime_order d2 d1 suffix H2 H1) as L21.
  rewrite E, StringOrder.ltb_irrefl in L12.
  rewrite E, StringOrder.ltb_irrefl in L21.
  assert (K : chron_key d1 = chron_key d2).
  { apply lex_ltb_antisym_eq; [reflexivity| |]; symmetry; assumption. }
  destruct d1, d2. unfold chron_key in K. simpl in K.
  injection K as -> -> -> -> -> ->. reflexivity.
Qed.

(** The date in the chart title is the date part of the name of the table
    the chart was drawn from: for a table named by [timestamp_str] it is the
    eight digits of year, month and day. *)
Theorem title_shows_capture_date (dir : string) (d : DateTime)
    (frame : list (NumRow * Scalar)) :
  title (draw (mkPath dir (strftime d ++ ".csv")) frame)
  = ("FAANG Normalized Close — "
       ++ pad4 (year d) ++ pad2 (month d) ++ pad2 (day d))%string.
Proof.
  unfold draw. cbn [title name]. f_equal.
  unfold strftime, pad4, pad2, stem.
  cbn -[digit].
  rewrite !digit_not_dash. reflexivity.
Qed.

Lemma timestamp_names_injective_witness :
  valid_datetime demo_now = true /\
  valid_datetime (mkDateTime 2024 1 2 3 4 5) = true /\
  ((strftime demo_now ++ ".png")%string
   = (strftime (mkDateTime 2024 1 2 3 4 5) ++ ".png")%string) /\
  demo_now = mkDateTime 2024 1 2 3 4 5.
Proof.
  split; [reflexivity|]. split; [reflexivity|]. split; [reflexivity|].
  apply (timestamp_names_injective demo_now (mkDateTime 2024 1 2 3 4 5) ".png");
    reflexivity.
Defined.

(** * The lines of the chart *)

Lemma group_keys_In (t : string) (tickers : list string) :
  In t (group_keys tickers) <-> In t tickers.
Proof. unfold group_keys. rewrite sort_by_In. apply nodup_In. Qed.

Lemma string_leb_trans_total :
  (forall a b, String.leb a b = true \/ String.leb b a = true) /\
  (forall a b c, String.leb a b = true -> String.leb b c = true -> String.leb a c = true).
Proof. split; [apply String.leb_total|apply StringOrder.leb_trans]. Qed.

(** Sorted keys without repetition are strictly increasing. *)
Lemma group_keys_strict (tickers : list string) :
  StronglySorted (fun a b => String.ltb a b = true) (group_keys tickers).
Proof.
  unfold group_keys.
  assert (Hs : StronglySorted (fun a b => String.leb a b = true)
                              (sort_by String.leb (nodup string_dec tickers))).
  { apply sort_by_sorted; apply string_leb_trans_total. }
  assert (Hn : NoDup (sort_by String.leb (nodup string_dec tickers))).
  { apply (Permutation_NoDup (Permutation_sym (sort_by_perm String.leb _))).
    apply NoDup_nodup. }
  induction Hs as [|x l Hs IH Hx]; [constructor|].
  inversion Hn as [|? ? Hnotin Hn']; subst.
  constructor; [now apply IH|].
  apply Forall_forall. intros y Hy. rewrite Forall_forall in Hx.
  specialize (Hx y Hy). apply StringOrder.leb_le in Hx.
  destruct Hx as [Hlt|Heq]; [now apply StringOrder.ltb_lt|].
  subst y. contradiction.
Qed.

Lemma plot_line_eq (t : string) (frame : list (NumRow * Scalar)) :
  plot_line t frame =
  if empty (line_rows t frame) then []
  else [(t, map (fun rv => (nDatetime (fst rv), snd rv)) (line_rows t frame))].
Proof. reflexivity. Qed.

Lemma plot_lines_In_inv (frame : list (NumRow * Scalar)) (t : string)
    (pts : list (Z * Scalar)) :
  In (t, pts) (plot_lines frame) ->
  line_rows t frame <> [] /\
  pts = map (fun rv => (nDatetime (fst rv), snd rv)) (line_rows t frame).
Proof.
  unfold plot_lines. rewrite in_flat_map. intros (k & _ & Hk).
  rewrite plot_line_eq in Hk.
  destruct (line_rows k frame) as [|rv g] eqn:E; simpl in Hk; [contradiction|].
  destruct Hk as [[= <- <-]|[]]. rewrite E. split; [discriminate|reflexivity].
Qed.

Lemma plot_lines_In_intro (frame : list (NumRow * Scalar)) (t : string) :
  line_rows t frame <> [] ->
  In (t, map (fun rv => (nDatetime (fst rv), snd rv)) (line_rows t frame))
     (plot_lines frame).
Proof.
  intros Hne. unfold plot_lines. apply in_flat_map. exists t. split.
  - apply group_keys_In.
    destruct (line_rows t frame) as [|rv g] eqn:E; [contradiction|].
    assert (Hrv : In rv (line_rows t frame)) by (rewrite E; now left).
    unfold line_rows in Hrv. apply filter_In in Hrv. destruct Hrv as [Hrv _].
    apply filter_In in Hrv. destruct Hrv as [Hrv Ht]. apply String.eqb_eq in Ht.
    rewrite <- Ht. now apply (in_map (fun rv0 => nTicker (fst rv0))).
  - rewrite plot_line_eq.
    destruct (line_rows t frame); [contradiction|]. now left.
Qed.

(** The labels of the lines are the keys that have rows to draw. *)
Lemma plot_lines_labels (frame : list (NumRow * Scalar)) :
  map fst (plot_lines frame)
  = filter (fun t => negb (empty (line_rows t frame)))
           (group_keys (map (fun rv => nTicker (fst rv)) frame)).
Proof.
  unfold plot_lines.
  induction (group_keys (map (fun rv => nTicker (fst rv)) frame)) as [|k keys IH];
    simpl; [reflexivity|].
  rewrite map_app, IH, plot_line_eq.
  destruct (line_rows k frame); reflexivity.
Qed.

Lemma filter_map_comm {A B : Type} (p : B -> bool) (g : A -> B) (l : list A) :
  filter p (map g l) = map g (filter (fun x => p (g x)) l).
Proof.
  induction l as [|x l IH]; simpl; [reflexivity|].
  rewrite IH. destruct (p (g x)); reflexivity.
Qed.

(** The first close of a group splits it: rows without a close, the base
    row, the rest. *)
Lemma first_valid_split (g : list NumRow) (b : float) :
  first_valid (map nClose g) = Some b ->
  exists pre r0 post,
    g = (pre ++ r0 :: post)%list /\
    Forall (fun x => is_nan (nClose x) = true) pre /\
    nClose r0 = b /\ is_nan b = false.
Proof.
  induction g as [|x g IH]; simpl; [discriminate|].
  rewrite first_valid_cons. destruct (is_nan (nClose x)) eqn:E.
  - intros H. destruct (IH H) as (pre & r0 & post & -> & Hpre & Hb & Hn).
    exists (x :: pre), r0, post. repeat split; try assumption. now constructor.
  - intros [= <-]. exists [], x, g. repeat split; [constructor|assumption].
Qed.

Section ChartFacts.
Variable parse_float : string -> option float.

Lemma line_rows_group (rows : list CsvRow) (t : string) :
  filter (fun rv => String.eqb (nTicker (fst rv)) t) (normalized_frame parse_float rows)
  = map (fun r => (r, spec_norm (numeric_frame parse_float rows) r))
        (group t (numeric_frame parse_float rows)).
Proof. rewrite normalized_frame_spec, filter_map_comm. reflexivity. Qed.

(** A ticker has a line exactly when one of its rows has a normalized value
    that is not missing. *)
Theorem line_iff_valid_point (frame : list (NumRow * Scalar)) (t : string) :
  In t (map fst (plot_lines frame)) <->
  exists rv, In rv frame /\ nTicker (fst rv) = t /\ isna (snd rv) = false.
Proof.
  split; [apply plot_lines_In|].
  intros (rv & Hrv & Ht & Hna).
  apply in_map_iff. eexists. split; [|apply plot_lines_In_intro].
  - reflexivity.
  - assert (Hin : In rv (line_rows t frame)).
    { unfold line_rows. apply filter_In. split.
      - apply filter_In. split; [assumption|now apply String.eqb_eq].
      - now rewrite Hna. }
    intros E. rewrite E in Hin. contradiction.
Qed.

(** The lines of the chart come in increasing order of their labels, one per
    ticker; every line has a point, no point is missing, and the points of a
    line are in chronological order. *)
Theorem chart_lines_well_formed (rows : list CsvRow) :
  let chart_lines := plot_lines (normalized_frame parse_float rows) in
  StronglySorted (fun a b => String.ltb a b = true) (map fst chart_lines) /\
  forall t pts, In (t, pts) chart_lines ->
    pts <> [] /\
    (forall p, In p pts -> isna (snd p) = false) /\
    StronglySorted (fun p q => fst p <= fst q) pts.
Proof.
  intros chart_lines. split.
  - unfold chart_lines. rewrite plot_lines_labels.
    apply StronglySorted_filter, group_keys_strict.
  - intros t pts Hin. apply plot_lines_In_inv in Hin. destruct Hin as [Hne ->].
    split; [|split].
    + intros E. apply map_eq_nil in E. contradiction.
    + intros p Hp. apply in_map_iff in Hp. destruct Hp as (rv & <- & Hrv).
      simpl. unfold line_rows in Hrv. apply filter_In in Hrv.
      destruct Hrv as [_ Hna]. now apply negb_true_iff in Hna.
    + apply (StronglySorted_map
               (fun a b : NumRow * Scalar => nDatetime (fst a) <= nDatetime (fst b))).
      * intros x y Hxy. exact Hxy.
      * unfold line_rows. apply StronglySorted_filter.
        rewrite line_rows_group.
        apply (StronglySorted_map (fun a b : NumRow => nDatetime a <= nDatetime b)).
        -- intros x y Hxy. exact Hxy.
        -- apply group_chronological.
Qed.

(** A ticker whose first non-missing close is finite and not zero is drawn,
    and its line starts at exactly 1.0, at the time of that first close. *)
Theorem line_starts_at_one (rows : list CsvRow) (t : string) (b : float) :
  first_valid (closes t (numeric_frame parse_float rows)) = Some b ->
  (b =? 0)%float = false ->
  is_infinity b = false ->
  exists pre r0 post rest,
    group t (numeric_frame parse_float rows) = (pre ++ r0 :: post)%list /\
    Forall (fun x => is_nan (nClose x) = true) pre /\
    nClose r0 = b /\
    In (t, (nDatetime r0, Num 1) :: rest)
       (plot_lines (normalized_frame parse_float rows)).
Proof.
  intros Hb Hz Hfin. unfold closes in Hb.
  destruct (first_valid_split _ _ Hb) as (pre & r0 & post & Hg & Hpre & Hr0 & Hn).
  set (df := numeric_frame parse_float rows) in *.
  set (g := fun r : NumRow => (r, spec_norm df r)).
  assert (Ht0 : nTicker r0 = t).
  { assert (Hin : In r0 (group t df)) by (rewrite Hg; apply in_elt).
    unfold group in Hin. apply filter_In in Hin. now apply String.eqb_eq. }
  assert (Hv0 : spec_norm df r0 = Num 1).
  { unfold spec_norm. rewrite Ht0, Hb, Hz, Hr0. now rewrite Float64.div_self. }
  assert (Hrows : line_rows t (normalized_frame parse_float rows)
                  = (r0, Num 1)
                      :: filter (fun rv => negb (isna (snd rv))) (map g post)).
  { unfold line_rows. rewrite line_rows_group. fold df. fold g.
    rewrite Hg, map_app, filter_app. simpl.
    assert (Hnil : filter (fun rv => negb (isna (snd rv))) (map g pre) = []).
    { apply filter_nil_forall. intros rv Hrv. apply in_map_iff in Hrv.
      destruct Hrv as (x & <- & Hx). simpl.
      rewrite Forall_forall in Hpre. now rewrite (spec_norm_nan df x (Hpre x Hx)). }
    rewrite Hnil, Hv0. change (negb (isna (Num 1))) with true.
    cbn [app]. unfold g at 1. now rewrite Hv0. }
  exists pre, r0, post. eexists.
  split; [exact Hg|]. split; [exact Hpre|]. split; [exact Hr0|].
  assert (Hne : line_rows t (normalized_frame parse_float rows) <> [])
    by (rewrite Hrows; discriminate).
  pose proof (plot_lines_In_intro _ t Hne) as Hin.
  rewrite Hrows in Hin. simpl in Hin. exact Hin.
Qed.
End ChartFacts.

Lemma line_starts_at_one_witness :
  first_valid (closes "E2" (numeric_frame demo_parse late_rows)) = Some 10%float /\
  (10 =? 0)%float = false /\
  is_infinity 10 = false /\
  exists pre r0 post rest,
    group "E2" (numeric_frame demo_parse late_rows) = (pre ++ r0 :: post)%list /\
    Forall (fun x => is_nan (nClose x) = true) pre /\
    nClose r0 = 10%float /\
    In ("E2", (nDatetime r0, Num 1) :: rest)
       (plot_lines (normalized_frame demo_parse late_rows)).
Proof.
  split; [reflexivity|]. split; [reflexivity|]. split; [reflexivity|].
  apply (line_starts_at_one demo_parse late_rows "E2" 10%float); reflexivity.
Defined.

(** * Cells that are not numbers *)

Section CoercionClaims.
Variable parse_float : string -> option float.

(** C8.  A close cell of the loaded table that the numeric parser rejects
    raises no error: [plot_data] returns the path of the chart it saved,
    drawn from the frame in which the close of that row is NaN.  The
    normalized value of the row is missing and not zero: it is NaN divided
    by the base when the ticker has a base that is not zero, and [pd.NA]
    otherwise.  The row gives no point to any line of the chart. *)
Theorem non_numeric_close_is_missing (w : World) (latest : Path)
    (rows : list CsvRow) (raw : CsvRow) :
  last_file (sorted_files (glob_csv "data" w)) = Some (latest, rows) ->
  In raw rows ->
  parse_float (csvClose raw) = None ->
  exists chart w',
    plot_data parse_float w = (Ok (plot_out w), w') /\
    In (plot_out w, chart) (png_files w') /\
    chart = draw latest (normalized_frame parse_float rows) /\
    exists i r v,
      nth_error (sort_by le_Ticker_Datetime rows) i = Some raw /\
      nth_error (normalized_frame parse_float rows) i = Some (r, v) /\
      nDatetime r = csvDatetime raw /\ nTicker r = csvTicker raw /\
      nClose r = nan /\
      v = match first_valid (closes (csvTicker raw) (numeric_frame parse_float rows)) with
          | Some b => if (b =? 0)%float then NA else Num (nan / b)%float
          | None => NA
          end /\
      isna v = true /\ v <> Num 0 /\
      forall t pts, In (t, pts) (lines chart) ->
        pts = map (fun rv => (nDatetime (fst rv), snd rv))
                  (line_rows t (normalized_frame parse_float rows)) /\
        ~ In (r, v) (line_rows t (normalized_frame parse_float rows)).
Proof.
  intros Hlast Hin Hparse.
  eexists. eexists.
  split; [apply (plot_data_loaded parse_float w latest rows Hlast)|].
  split; [apply savefig_In|]. split; [reflexivity|].
  assert (Hs : In raw (sort_by le_Ticker_Datetime rows)) by now apply sort_by_In.
  apply In_nth_error in Hs. destruct Hs as [i Hi].
  set (r := mkNumRow (csvDatetime raw) (csvTicker raw)
                     (to_numeric parse_float (csvClose raw))).
  assert (Hclose : nClose r = nan).
  { unfold r, to_numeric. cbn [nClose]. now rewrite Hparse. }
  assert (Hnan : is_nan (nClose r) = true) by (now rewrite Hclose).
  assert (Hna : isna (spec_norm (numeric_frame parse_float rows) r) = true)
    by now apply spec_norm_nan.
  exists i, r, (spec_norm (numeric_frame parse_float rows) r).
  split; [exact Hi|]. split.
  { rewrite normalized_frame_spec, nth_error_map. unfold numeric_frame at 2.
    rewrite nth_error_map, Hi. reflexivity. }
  split; [reflexivity|]. split; [reflexivity|]. split; [exact Hclose|]. split.
  { unfold spec_norm, closes. rewrite Hclose. reflexivity. }
  split; [exact Hna|]. split; [now apply isna_not_zero|].
  intros t pts Hpts. cbn [lines draw] in Hpts.
  apply plot_lines_In_inv in Hpts. destruct Hpts as [_ ->].
  split; [reflexivity|].
  intros Hrow. unfold line_rows in Hrow. apply filter_In in Hrow.
  destruct Hrow as [_ Hrow]. cbn [snd] in Hrow. rewrite Hna in Hrow. discriminate Hrow.
Qed.
End CoercionClaims.

Lemma non_numeric_close_is_missing_witness :
  last_file (sorted_files (glob_csv "data" gap_world))
    = Some (mkPath "data" "20240101-000000.csv", gap_rows) /\
  In (csv_row 2 "A" "n/a") gap_rows /\
  demo_parse (csvClose (csv_row 2 "A" "n/a")) = None /\
  first_valid (closes "A" (numeric_frame demo_parse gap_rows)) = Some 10%float /\
  nth_error (normalized_frame demo_parse gap_rows) 1
    = Some (mkNumRow 2 "A" nan, Num (nan / 10)%float) /\
  exists chart w',
    plot_data demo_parse gap_world = (Ok (plot_out gap_world), w') /\
    In (plot_out gap_world, chart) (png_files w') /\
    chart = draw (mkPath "data" "20240101-000000.csv")
                 (normalized_frame demo_parse gap_rows) /\
    exists i r v,
      nth_error (sort_by le_Ticker_Datetime gap_rows) i = Some (csv_row 2 "A" "n/a") /\
      nth_error (normalized_frame demo_parse gap_rows) i = Some (r, v) /\
      nDatetime r = csvDatetime (csv_row 2 "A" "n/a") /\
      nTicker r = csvTicker (csv_row 2 "A" "n/a") /\
      nClose r = nan /\
      v = match first_valid (closes (csvTicker (csv_row 2 "A" "n/a"))
                                    (numeric_frame demo_parse gap_rows)) with
          | Some b => if (b =? 0)%float then NA else Num (nan / b)%float
          | None => NA
          end /\
      isna v = true /\ v <> Num 0 /\
      forall t pts, In (t, pts) (lines chart) ->
        pts = map (fun rv => (nDatetime (fst rv), snd rv))
                  (line_rows t (normalized_frame demo_parse gap_rows)) /\
        ~ In (r, v) (line_rows t (normalized_frame demo_parse gap_rows)).
Proof.
  assert (Hin : In (csv_row 2 "A" "n/a") gap_rows) by (simpl; tauto).
  split; [reflexivity|]. split; [exact Hin|]. split; [reflexivity|].
  split; [reflexivity|]. split; [reflexivity|].
  exact (non_numeric_close_is_missing demo_parse gap_world
           (mkPath "data" "20240101-000000.csv") gap_rows (csv_row 2 "A" "n/a")
           eq_refl Hin eq_refl).
Defined.

(** * The two stages in sequence *)

Section PipelineFacts.
Variable yf_download : string -> DateTime -> list Bar.
Variable repr : float -> string.
Variable parse_float : string -> option float.

Lemma written_table_in_glob (combined : list PriceRow) (w : World) :
  In (data_out w, map (csv_line repr) combined)
     (glob_csv "data" (to_csv repr combined (data_out w) (snd (ensure_dir "data" w)))).
Proof. unfold glob_csv. apply filter_In. split; [apply to_csv_In|reflexivity]. Qed.

Lemma get_data_png (tickers : list string) (w : World) :
  png_files (snd (get_data yf_download repr tickers w)) = png_files w.
Proof.
  destruct (empty (fetch yf_download (utcnow w) tickers)) eqn:E.
  - now rewrite (get_data_raise yf_download repr tickers w E).
  - rewrite (get_data_ok yf_download repr tickers w E).
    cbn [snd]. unfold to_csv. cbn [png_files]. apply ensure_dir_png.
Qed.

Lemma plot_out_after_get_data (combined : list PriceRow) (w : World) :
  plot_out (to_csv repr combined (data_out w) (snd (ensure_dir "data" w))) = plot_out w.
Proof.
  unfold plot_out, timestamp_str, to_csv. cbn [utcnow].
  now rewrite ensure_dir_utcnow.
Qed.

(** The table written last is the one loaded, when no older table has a
    greater name. *)
Lemma written_table_is_latest (combined : list PriceRow) (w : World) :
  (forall f, In f (glob_csv "data" w) ->
             String.leb (name (fst f)) (name (data_out w)) = true) ->
  last_file (sorted_files
               (glob_csv "data"
                  (to_csv repr combined (data_out w) (snd (ensure_dir "data" w)))))
  = Some (data_out w, map (csv_line repr) combined).
Proof.
  intros Hold.
  set (w1 := to_csv repr combined (data_out w) (snd (ensure_dir "data" w))).
  pose proof (written_table_in_glob combined w) as Hnew. fold w1 in Hnew.
  assert (Hne : glob_csv "data" w1 <> []).
  { intros E. rewrite E in Hnew. contradiction. }
  destruct (last_file_exists _ Hne) as [m Hm]. rewrite Hm. f_equal.
  destruct (last_file_sorted _ _ Hm) as [Hin Hmax].
  pose proof (Hmax _ Hnew) as Hle. cbn [fst] in Hle.
  apply glob_csv_In in Hin. destruct Hin as (Hin & Hpar & Hsuf).
  unfold w1, to_csv in Hin. cbn [csv_files] in Hin. rewrite ensure_dir_csv in Hin.
  apply write_file_In_inv in Hin. destruct Hin as [->|[Hin Hneq]]; [reflexivity|].
  exfalso. apply Hneq.
  assert (Hm_old : In m (glob_csv "data" w)).
  { unfold glob_csv. apply filter_In. split; [assumption|].
    apply andb_true_iff. split; [now apply String.eqb_eq|assumption]. }
  apply Hold in Hm_old.
  apply path_le_iff in Hle. destruct Hle as [Hlt|[_ Hle]].
  - cbn [parent data_out] in Hlt. rewrite Hpar, StringOrder.ltb_irrefl in Hlt.
    discriminate.
  - assert (Hname : name (fst m) = name (data_out w))
      by (now apply String.leb_antisym).
    destruct (fst m) as [mp mn]. cbn [parent name] in *. subst mp mn. reflexivity.
Qed.

(** The rows [yf.download] returned, with the columns [plot_data] works
    with. *)
Lemma combined_frame_rows (tickers : list string) (w : World) :
  Permutation
    (map num_row (combined_frame (fetch yf_download (utcnow w) tickers)))
    (flat_map (fun t => map (fun b => mkNumRow (bDatetime b) t (bClose b))
                            (yf_download t (utcnow w)))
              tickers).
Proof.
  unfold combined_frame.
  eapply perm_trans; [apply Permutation_map, sort_by_perm|].
  rewrite concat_fetch.
  induction tickers as [|t rest IH]; simpl; [constructor|].
  rewrite map_app, map_map. apply Permutation_app; [|exact IH].
  apply Permutation_refl.
Qed.

(** The whole pipeline.  When [get_data] has written its table and no older
    table under [data/] has a greater name, a [plot_data] that runs
    afterwards, whatever the clock reads by then, draws its chart from the
    table stored under the path [get_data] returned; if the closes survive
    printing and parsing, the frame it normalizes holds exactly the rows
    the source returned for the tickers, each with its ticker, its time and
    its close. *)
Theorem plot_after_get_data_uses_new_table (tickers : list string) (w : World)
    (out : Path) (w1 : World) (now' : DateTime) :
  get_data yf_download repr tickers w = (Ok out, w1) ->
  (forall f, In f (glob_csv "data" w) ->
             String.leb (name (fst f)) (name out) = true) ->
  (forall t b, In t tickers -> In b (yf_download t (utcnow w)) ->
               to_numeric parse_float (repr (bClose b)) = bClose b) ->
  exists table w2,
    In (out, table) (csv_files w1) /\
    plot_data parse_float (at_time now' w1) = (Ok (plot_out (at_time now' w1)), w2) /\
    In (plot_out (at_time now' w1), draw out (normalized_frame parse_float table))
       (png_files w2) /\
    Permutation
      (map fst (normalized_frame parse_float table))
      (flat_map (fun t => map (fun b => mkNumRow (bDatetime b) t (bClose b))
                              (yf_download t (utcnow w)))
                tickers).
Proof.
  intros Hget Hold Hround.
  apply get_data_inv in Hget. destruct Hget as (_ & -> & ->).
  set (combined := combined_frame (fetch yf_download (utcnow w) tickers)).
  pose proof (written_table_is_latest combined w Hold) as Hlast.
  exists (map (csv_line repr) combined). eexists.
  split; [apply to_csv_In|]. split; [|split].
  - apply (plot_data_loaded parse_float (at_time now' _) _ _ Hlast).
  - apply savefig_In.
  - rewrite normalized_frame_fst. unfold numeric_frame.
    eapply perm_trans; [apply Permutation_map, sort_by_perm|].
    rewrite map_map.
    assert (E : map (fun x => mkNumRow (csvDatetime (csv_line repr x))
                                       (csvTicker (csv_line repr x))
                                       (to_numeric parse_float (csvClose (csv_line repr x))))
                    combined
                = map num_row combined).
    { apply map_ext_in. intros r Hr. unfold num_row.
      cbn [csv_line csvDatetime csvTicker csvClose]. f_equal.
      unfold combined, combined_frame in Hr.
      rewrite sort_by_In, concat_fetch, in_flat_map in Hr.
      destruct Hr as (t & Ht & Hr). apply in_map_iff in Hr.
      destruct Hr as (b & <- & Hb). cbn [tag Close]. now apply (Hround t b). }
    rewrite E. apply combined_frame_rows.
Qed.

(** A table stored outside [data/], or under a name that does not end in
    [.csv], does not change what [plot_data] returns or draws. *)
Theorem plot_data_ignores_other_files (f : Path * list CsvRow) (w : World) :
  parent (fst f) <> "data" \/ endswith (name (fst f)) ".csv" = false ->
  fst (plot_data parse_float (add_csv_file f w)) = fst (plot_data parse_float w) /\
  png_files (snd (plot_data parse_float (add_csv_file f w)))
  = png_files (snd (plot_data parse_float w)).
Proof.
  intros Hf.
  assert (Hglob : glob_csv "data" (add_csv_file f w) = glob_csv "data" w).
  { unfold glob_csv, add_csv_file. cbn [csv_files filter].
    destruct Hf as [Hp|Hs].
    - apply String.eqb_neq in Hp. now rewrite Hp.
    - rewrite Hs, andb_false_r. reflexivity. }
  destruct (last_file (sorted_files (glob_csv "data" w))) as [[latest rows]|] eqn:E.
  - assert (E' := E). rewrite <- Hglob in E'.
    rewrite (plot_data_loaded parse_float _ latest rows E'),
            (plot_data_loaded parse_float _ latest rows E).
    cbn [fst snd savefig png_files]. rewrite !ensure_dir_png. split; reflexivity.
  - assert (E' := E). rewrite <- Hglob in E'.
    rewrite (plot_data_none parse_float _ E'), (plot_data_none parse_float _ E).
    cbn [fst snd]. rewrite !ensure_dir_png. split; reflexivity.
Qed.

(** * The command line *)

Section MainFacts.
Variable later : DateTime -> DateTime.

(** Without data for any of the five tickers, [download] and [all] end with
    the RuntimeError of [get_data] and leave the world untouched: with [all]
    the plot step is not run, even if older tables are there. *)
Theorem main_stops_without_data (action : Action) (w : World) :
  action <> plot ->
  Forall (fun t => empty (yf_download t (utcnow w)) = true) FAANG ->
  exists msg,
    main yf_download repr parse_float later action w
    = (Raise (RuntimeError msg), w).
Proof.
  intros Hact Hall. apply fetch_empty_iff in Hall.
  eexists. unfold main, main_download.
  destruct action; [| contradiction |];
    rewrite (get_data_raise yf_download repr FAANG w Hall); reflexivity.
Qed.

(** With data for at least one of the five tickers, [all] writes the table,
    then the chart, and prints the two paths: the table's carries the
    reading of the clock the download ran with, the chart's the reading
    when the plot step runs.  Both files are there afterwards. *)
Theorem main_all_prints_both_paths (w : World) (u : string) :
  In u FAANG -> empty (yf_download u (utcnow w)) = false ->
  exists w1 w2 table chart,
    get_data yf_download repr FAANG w = (Ok (data_out w), w1) /\
    main yf_download repr parse_float later all w
    = (Ok [("Saved data: data/" ++ strftime (utcnow w) ++ ".csv")%string;
           ("Saved plot: plots/" ++ strftime (later (utcnow w1)) ++ ".png")%string],
       w2) /\
    In (data_out w, table) (csv_files w2) /\
    In (mkPath "plots" (strftime (later (utcnow w1)) ++ ".png"), chart) (png_files w2).
Proof.
  intros Hu He.
  assert (Hne : empty (fetch yf_download (utcnow w) FAANG) = false)
    by (eapply fetch_not_empty; eassumption).
  set (combined := combined_frame (fetch yf_download (utcnow w) FAANG)).
  set (w1 := to_csv repr combined (data_out w) (snd (ensure_dir "data" w))).
  pose proof (written_table_in_glob combined w) as Hnew. fold w1 in Hnew.
  assert (Hg : glob_csv "data" (at_time (later (utcnow w1)) w1) <> []).
  { intros E. change (glob_csv "data" (at_time (later (utcnow w1)) w1))
      with (glob_csv "data" w1) in E. rewrite E in Hnew. contradiction. }
  destruct (last_file_exists _ Hg) as [[latest rows] Hlast].
  exists w1. eexists. exists (map (csv_line repr) combined). eexists.
  split; [apply (get_data_ok yf_download repr FAANG w Hne)|].
  unfold main, main_download, main_plot.
  rewrite (get_data_ok yf_download repr FAANG w Hne). fold combined. fold w1.
  rewrite (plot_data_loaded parse_float _ latest rows Hlast).
  split; [reflexivity|]. split.
  - cbn [savefig csv_files]. rewrite !ensure_dir_csv. apply to_csv_In.
  - apply savefig_In.
Qed.

(** [download] never writes a chart and [plot] never writes a table. *)
Theorem main_steps_are_separate (w : World) :
  png_files (snd (main yf_download repr parse_float later download w)) = png_files w /\
  csv_files (snd (main yf_download repr parse_float later plot w)) = csv_files w.
Proof.
  split.
  - unfold main, main_download, main_plot.
    pose proof (get_data_png FAANG w) as H.
    destruct (get_data yf_download repr FAANG w) as [[p|e] w']; exact H.
  - unfold main, main_download, main_plot.
    destruct (plot_data_world parse_float w) as (H & _).
    destruct (plot_data parse_float w) as [[p|e] w']; exact H.
Qed.
End MainFacts.
End PipelineFacts.

Lemma plot_after_get_data_uses_new_table_witness :
  let w1 := snd (get_data demo_download demo_repr ["A"; "B"] fresh_world) in
  let now' := one_minute_later demo_now in
  get_data demo_download demo_repr ["A"; "B"] fresh_world
    = (Ok (data_out fresh_world), w1) /\
  exists table w2,
    In (data_out fresh_world, table) (csv_files w1) /\
    plot_data demo_parse (at_time now' w1) = (Ok (plot_out (at_time now' w1)), w2) /\
    In (plot_out (at_time now' w1),
        draw (data_out fresh_world) (normalized_frame demo_parse table))
       (png_files w2) /\
    Permutation
      (map fst (normalized_frame demo_parse table))
      (flat_map (fun t => map (fun b => mkNumRow (bDatetime b) t (bClose b))
                              (demo_download t (utcnow fresh_world)))
                ["A"; "B"]).
Proof.
  intros w1 now'. split; [reflexivity|].
  apply (plot_after_get_data_uses_new_table demo_download demo_repr demo_parse
           ["A"; "B"] fresh_world (data_out fresh_world) w1 now').
  - reflexivity.
  - intros f [].
  - intros t b Ht Hb. simpl in Ht.
    destruct Ht as [<-|[<-|[]]]; vm_compute in Hb;
      repeat (destruct Hb as [<-|Hb]; [reflexivity|]); contradiction.
Defined.

Lemma plot_data_ignores_other_files_witness :
  (parent (mkPath "plots" "20990101-000000.csv") <> "data" \/
   endswith (name (mkPath "plots" "20990101-000000.csv")) ".csv" = false) /\
  fst (plot_data demo_parse
         (add_csv_file (mkPath "plots" "20990101-000000.csv", inf_rows) demo_world))
  = fst (plot_data demo_parse demo_world) /\
  png_files (snd (plot_data demo_parse
                    (add_csv_file (mkPath "plots" "20990101-000000.csv", inf_rows)
                                  demo_world)))
  = png_files (snd (plot_data demo_parse demo_world)).
Proof.
  assert (H : parent (mkPath "plots" "20990101-000000.csv") <> "data" \/
              endswith (name (mkPath "plots" "20990101-000000.csv")) ".csv" = false)
    by (left; discriminate).
  split; [exact H|].
  exact (plot_data_ignores_other_files demo_parse
           (mkPath "plots" "20990101-000000.csv", inf_rows) demo_world H).
Defined.

Lemma main_stops_without_data_witness :
  all <> plot /\
  Forall (fun t => empty (no_download t (utcnow demo_world)) = true) FAANG /\
  exists msg,
    main no_download demo_repr demo_parse one_minute_later all demo_world
    = (Raise (RuntimeError msg), demo_world).
Proof.
  assert (Ha : all <> plot) by discriminate.
  assert (Hall : Forall (fun t => empty (no_download t (utcnow demo_world)) = true) FAANG)
    by (repeat constructor).
  split; [exact Ha|]. split; [exact Hall|].
  exact (main_stops_without_data no_download demo_repr demo_parse one_minute_later
           all demo_world Ha Hall).
Defined.

Lemma main_all_prints_both_paths_witness :
  In "AAPL" FAANG /\
  empty (aapl_download "AAPL" (utcnow fresh_world)) = false /\
  exists w1 w2 table chart,
    get_data aapl_download demo_repr FAANG fresh_world
      = (Ok (data_out fresh_world), w1) /\
    main aapl_download demo_repr demo_parse one_minute_later all fresh_world
    = (Ok [("Saved data: data/" ++ strftime (utcnow fresh_world) ++ ".csv")%string;
           ("Saved plot: plots/" ++ strftime (one_minute_later (utcnow w1))
              ++ ".png")%string], w2) /\
    In (data_out fresh_world, table) (csv_files w2) /\
    In (mkPath "plots" (strftime (one_minute_later (utcnow w1)) ++ ".png"), chart)
       (png_files w2).
Proof.
  assert (Hin : In "AAPL" FAANG) by (simpl; tauto).
  split; [exact Hin|]. split; [reflexivity|].
  exact (main_all_prints_both_paths aapl_download demo_repr demo_parse
           one_minute_later fresh_world "AAPL" Hin eq_refl).
Defined.

(** * Per-ticker normalization *)

Section FilterSort.
Context {A : Type}.
Variable le : A -> A -> bool.
Hypothesis le_total : forall a b, le a b = true \/ le b a = true.
Hypothesis le_trans : forall a b c, le a b = true -> le b c = true -> le a c = true.

Lemma insert_by_below (x : A) (l : list A) :
  Forall (fun z => le x z = true) l -> insert_by le x l = x :: l.
Proof.
  intros H. destruct l as [|y l]; [reflexivity|].
  simpl. inversion H as [|? ? Hy _]; subst. now rewrite Hy.
Qed.

Lemma filter_insert_by (p : A -> bool) (x : A) (l : list A) :
  StronglySorted (fun a b => le a b = true) l ->
  filter p (insert_by le x l)
  = if p x then insert_by le x (filter p l) else filter p l.
Proof.
  induction 1 as [|y l Hs IH Hy]; simpl.
  - destruct (p x); reflexivity.
  - destruct (le x y) eqn:Exy.
    + simpl. destruct (p x); [|reflexivity].
      symmetry. apply insert_by_below.
      assert (Hall : Forall (fun z => le x z = true) (y :: l)).
      { constructor; [exact Exy|].
        eapply Forall_impl; [|exact Hy]. intros z Hz. eapply le_trans; eassumption. }
      apply Forall_forall. intros z Hz.
      rewrite Forall_forall in Hall. apply Hall.
      change (In z (filter p (y :: l))) in Hz. now apply filter_In in Hz.
    + simpl. rewrite IH. destruct (p y), (p x); simpl; try reflexivity.
      now rewrite Exy.
Qed.

(** Selecting rows commutes with the stable sort. *)
Lemma filter_sort_by (p : A -> bool) (l : list A) :
  filter p (sort_by le l) = sort_by le (filter p l).
Proof.
  induction l as [|x l IH]; simpl; [reflexivity|].
  rewrite filter_insert_by by (now apply sort_by_sorted).
  rewrite IH. destruct (p x); reflexivity.
Qed.
End FilterSort.

Section PerTicker.
Variable parse_float : string -> option float.

(** The group of a ticker is the sorted selection of its rows in the file. *)
Lemma group_numeric_frame (rows : list CsvRow) (t : string) :
  group t (numeric_frame parse_float rows)
  = map (fun r => mkNumRow (csvDatetime r) (csvTicker r)
                           (to_numeric parse_float (csvClose r)))
        (sort_by le_Ticker_Datetime
                 (filter (fun r => String.eqb (csvTicker r) t) rows)).
Proof.
  unfold group, numeric_frame. rewrite filter_map_comm. cbn [nTicker].
  now rewrite (filter_sort_by le_Ticker_Datetime
                 le_Ticker_Datetime_total le_Ticker_Datetime_trans).
Qed.

Lemma spec_norm_same_group (df df' : list NumRow) (r : NumRow) :
  group (nTicker r) df = group (nTicker r) df' ->
  spec_norm df r = spec_norm df' r.
Proof. intros H. unfold spec_norm. now rewrite H. Qed.

(** The line of a ticker depends only on the rows of that ticker: two
    tables with the same rows for it, in the same order, give it the same
    line, whatever the other tickers are. *)
Theorem line_independent_of_other_tickers (rows rows' : list CsvRow) (t : string) :
  filter (fun r => String.eqb (csvTicker r) t) rows
  = filter (fun r => String.eqb (csvTicker r) t) rows' ->
  plot_line t (normalized_frame parse_float rows)
  = plot_line t (normalized_frame parse_float rows').
Proof.
  intros H.
  assert (Hg : group t (numeric_frame parse_float rows)
               = group t (numeric_frame parse_float rows'))
    by (now rewrite !group_numeric_frame, H).
  assert (Hl : line_rows t (normalized_frame parse_float rows)
               = line_rows t (normalized_frame parse_float rows')).
  { unfold line_rows. rewrite !line_rows_group, <- Hg. f_equal.
    apply map_ext_in. intros r Hr. f_equal.
    unfold group in Hr. apply filter_In in Hr. destruct Hr as [_ Hr].
    apply String.eqb_eq in Hr. apply spec_norm_same_group. now rewrite Hr. }
  now rewrite !plot_line_eq, Hl.
Qed.

(** Normalization drops no row: the frame of line 89 has one row for every
    line of the file, carrying that line's ticker and time, and the rows are
    in (Ticker, Datetime) order. *)
Theorem normalized_frame_keeps_rows (rows : list CsvRow) :
  List.length (normalized_frame parse_float rows) = List.length rows /\
  Permutation (map (fun rv => (nTicker (fst rv), nDatetime (fst rv)))
                   (normalized_frame parse_float rows))
              (map (fun r => (csvTicker r, csvDatetime r)) rows) /\
  StronglySorted
    (fun a b => String.ltb (nTicker (fst a)) (nTicker (fst b)) = true \/
                (nTicker (fst a) = nTicker (fst b) /\
                 nDatetime (fst a) <= nDatetime (fst b)))
    (normalized_frame parse_float rows).
Proof.
  rewrite normalized_frame_spec. unfold numeric_frame. rewrite !map_map.
  cbn [fst nTicker nDatetime]. split; [|split].
  - rewrite length_map. apply Permutation_length, sort_by_perm.
  - apply Permutation_map, sort_by_perm.
  - apply (StronglySorted_map (fun a b => le_Ticker_Datetime a b = true)).
    + intros x y Hxy. cbn [fst nTicker nDatetime]. now apply le_Ticker_Datetime_iff.
    + apply sort_by_sorted;
        [apply le_Ticker_Datetime_total|apply le_Ticker_Datetime_trans].
Qed.
End PerTicker.

Lemma line_independent_of_other_tickers_witness :
  filter (fun r => String.eqb (csvTicker r) "D") demo_rows
  = filter (fun r => String.eqb (csvTicker r) "D")
           [csv_row 1 "D" "-5"; csv_row 9 "Q" "100"; csv_row 2 "D" "10"] /\
  plot_line "D" (normalized_frame demo_parse demo_rows)
  = plot_line "D" (normalized_frame demo_parse
                     [csv_row 1 "D" "-5"; csv_row 9 "Q" "100"; csv_row 2 "D" "10"]).
Proof.
  split; [reflexivity|].
  apply (line_independent_of_other_tickers demo_parse demo_rows
           [csv_row 1 "D" "-5"; csv_row 9 "Q" "100"; csv_row 2 "D" "10"] "D").
  reflexivity.
Defined.
